(** * Monte Carlo lattice engine of the 2D Ising model

    A shallow embedding of [src/src/mathutil.h] (the lattice container
    [State], the samplers [MetropolisMethod] and [IsingHeatBathMethod]) and
    of [src/src/isingmodel.h] (the physical model [IsingModel]), followed by
    the properties of the design document that concern them.

    Conventions of the embedding.
    - [size_t] indices and dimensions are [nat]; [int] values are [Z]. The
      class [State<N, M, T>] exists for N, M >= 1 only, so [rows() - 1] and
      [cols() - 1] never wrap; an [int] drawn from a distribution on
      [0, n] is non-negative, so its conversion to [size_t] is [Z.to_nat].
    - A [double] that only ever holds a sum of spins or of spin products is
      an integer below 2^53 in magnitude and is held exactly: it is a [Z].
      A [double] that goes through a division, [exp] or [tanh] is idealised
      as a real number ([R]) or a rational ([Q]); rounding is not modelled.
      The threshold of the heat-bath update is a [Double.t], which adds the
      signed zeros, the infinities and NaN of IEEE 754 to the real numbers,
      so that a division by a zero kb·T and an overflow give what the code
      computes. The acceptance threshold of [randomAccept] stays a real
      number: it is what the code computes where kb·T is not zero and
      nothing overflows, and every property stated of it assumes kb·T > 0.
    - [T _elements[N][M]] is a list of rows; a read or write outside the
      array is undefined behaviour in C++ and is given the default value
      (read) or no effect (write) here.
    - Every class keeps its generator in an [inline static] member: the
      generators live in a record of statics that every method threads. *)

From Stdlib Require Import ZArith QArith Reals Lra Lia List Bool.
From stdpp Require Import base list.
Import ListNotations.

(* ===================================================================== *)
(** * The generator: [std::mt19937] *)
(* ===================================================================== *)

(** The 32-bit Mersenne Twister with the parameters the C++ standard fixes
    for [std::mt19937]: 624 words of state, the seeding recurrence with
    multiplier 1812433253, the twist with middle word 397 and matrix
    0x9908b0df, and the tempering shifts 11, 7, 15, 18. *)
Module mt19937.
Local Open Scope Z_scope.

Record engine : Type := Engine { x : list Z; idx : nat }.

Definition word (v : Z) : Z := v mod 2 ^ 32.

Fixpoint seed_words (k : nat) (i : Z) (prev : Z) : list Z :=
  match k with
  | O => []
  | S k' =>
      let v := word (1812433253 * Z.lxor prev (Z.shiftr prev 30) + i) in
      v :: seed_words k' (i + 1) v
  end.

(** [mt.seed(value)] *)
Definition seed (value : Z) : engine :=
  let x0 := word value in
  {| x := x0 :: seed_words 623 1 x0; idx := 624 |}.

Definition twist_step (xs : list Z) (i : nat) : list Z :=
  let y := Z.lor (Z.land (xs !!! i) 2147483648)
                 (Z.land (xs !!! ((i + 1) mod 624)%nat) 2147483647) in
  <[ i := Z.lxor (Z.lxor (xs !!! ((i + 397) mod 624)%nat) (Z.shiftr y 1))
                 (if Z.odd y then 2567483615 else 0) ]> xs.

Definition twist (xs : list Z) : list Z :=
  fold_left twist_step (seq 0 624) xs.

Definition temper (y : Z) : Z :=
  let y := Z.lxor y (Z.land (Z.shiftr y 11) 4294967295) in
  let y := Z.lxor y (Z.land (word (Z.shiftl y 7)) 2636928640) in
  let y := Z.lxor y (Z.land (word (Z.shiftl y 15)) 4022730752) in
  Z.lxor y (Z.shiftr y 18).

(** [mt()] : the next 32-bit output and the advanced engine. *)
Definition next (g : engine) : Z * engine :=
  let g1 := if (624 <=? idx g)%nat
            then {| x := twist (x g); idx := 0 |} else g in
  (temper (x g1 !!! idx g1), {| x := x g1; idx := S (idx g1) |}).

(** The first [k] outputs of an engine. *)
Fixpoint outputs (k : nat) (g : engine) : list Z :=
  match k with
  | O => []
  | S k' => let '(y, g') := next g in y :: outputs k' g'
  end.

(** [mt.discard(k)] *)
Fixpoint discard (k : nat) (g : engine) : engine :=
  match k with
  | O => g
  | S k' => discard k' (next g).2
  end.
End mt19937.


(* ===================================================================== *)
(** * The static generators and the methods that draw from them *)
(* ===================================================================== *)

(** [enum class LatticeType] *)
Inductive LatticeType : Type := Square | Triangle | Rhombus | Hexagonal.

(** Every class declares [inline static std::mt19937 mt]: one generator for
    [State<N, M, bool>] (for each N and M in use; programs here use one),
    one for [IsingModel], and one for each specialisation
    [IsingHeatBathMethod<L>]. Objects hold no generator. *)
Module Statics.
Inductive stream : Type :=
| State_mt
| IsingModel_mt
| IsingHeatBathMethod_mt (L : LatticeType).

Record t : Type := Build
  { state_mt : mt19937.engine;
    isingmodel_mt : mt19937.engine;
    heatbath_square_mt : mt19937.engine;
    heatbath_triangle_mt : mt19937.engine;
    heatbath_rhombus_mt : mt19937.engine;
    heatbath_hexagonal_mt : mt19937.engine }.

Definition get (s : stream) (w : t) : mt19937.engine :=
  match s with
  | State_mt => state_mt w
  | IsingModel_mt => isingmodel_mt w
  | IsingHeatBathMethod_mt Square => heatbath_square_mt w
  | IsingHeatBathMethod_mt Triangle => heatbath_triangle_mt w
  | IsingHeatBathMethod_mt Rhombus => heatbath_rhombus_mt w
  | IsingHeatBathMethod_mt Hexagonal => heatbath_hexagonal_mt w
  end.

Definition set (s : stream) (g : mt19937.engine) (w : t) : t :=
  match s with
  | State_mt =>
      Build g (isingmodel_mt w) (heatbath_square_mt w)
            (heatbath_triangle_mt w) (heatbath_rhombus_mt w)
            (heatbath_hexagonal_mt w)
  | IsingModel_mt =>
      Build (state_mt w) g (heatbath_square_mt w)
            (heatbath_triangle_mt w) (heatbath_rhombus_mt w)
            (heatbath_hexagonal_mt w)
  | IsingHeatBathMethod_mt Square =>
      Build (state_mt w) (isingmodel_mt w) g
            (heatbath_triangle_mt w) (heatbath_rhombus_mt w)
            (heatbath_hexagonal_mt w)
  | IsingHeatBathMethod_mt Triangle =>
      Build (state_mt w) (isingmodel_mt w) (heatbath_square_mt w)
            g (heatbath_rhombus_mt w) (heatbath_hexagonal_mt w)
  | IsingHeatBathMethod_mt Rhombus =>
      Build (state_mt w) (isingmodel_mt w) (heatbath_square_mt w)
            (heatbath_triangle_mt w) g (heatbath_hexagonal_mt w)
  | IsingHeatBathMethod_mt Hexagonal =>
      Build (state_mt w) (isingmodel_mt w) (heatbath_square_mt w)
            (heatbath_triangle_mt w) (heatbath_rhombus_mt w) g
  end.
End Statics.

(** A method that may draw: a function of the statics. *)
Definition Run (A : Type) : Type := Statics.t -> A * Statics.t.

Definition ret {A : Type} (a : A) : Run A := fun w => (a, w).

Definition bind {A B : Type} (m : Run A) (k : A -> Run B) : Run B :=
  fun w => let '(a, w') := m w in k a w'.

Notation "x <- m ;; k" := (bind m (fun x => k))
  (at level 100, m at next level, right associativity).

(** [d(mt)] for the generator [mt] of the class that owns stream [s]. *)
Definition draw {A : Type} (s : Statics.stream)
    (d : mt19937.engine -> A * mt19937.engine) : Run A :=
  fun w => let '(a, g) := d (Statics.get s w) in (a, Statics.set s g w).

(** [mt.seed(seed)] on the generator of stream [s]. *)
Definition seed_stream (s : Statics.stream) (seed : Z) : Run unit :=
  fun w => (tt, Statics.set s (mt19937.seed seed) w).

(** [for (size_t i = 0; i < n; ++i) body], pure and drawing. *)
Definition loop {A : Type} (n : nat) (body : nat -> A -> A) (a : A) : A :=
  fold_left (fun acc i => body i acc) (seq 0 n) a.

Fixpoint iterM {A : Type} (l : list nat) (body : nat -> A -> Run A) (a : A)
    : Run A :=
  match l with
  | [] => ret a
  | i :: l' => a' <- body i a ;; iterM l' body a'
  end.

Definition loopM {A : Type} (n : nat) (body : nat -> A -> Run A) (a : A)
    : Run A :=
  iterM (seq 0 n) body a.

(** The distributions of [<random>]. Their algorithms are left to the
    implementation of the C++ library: they are an interface here. A
    distribution object of these two kinds keeps no state between calls. *)
Class Distributions : Type :=
  { (** [std::uniform_int_distribution<>(a, b)(mt)] *)
    uniform_int_distribution :
      Z -> Z -> mt19937.engine -> Z * mt19937.engine;
    (** [std::uniform_real_distribution<>(a, b)(mt)] *)
    uniform_real_distribution :
      R -> R -> mt19937.engine -> R * mt19937.engine }.

(** [a < b] on [double], as a truth value. *)
Definition Rltb (a b : R) : bool := if Rlt_dec a b then true else false.


(* ===================================================================== *)
(** * [double] with its zeros, infinities and NaN *)
(* ===================================================================== *)

(** The value of a [double] expression in which a division by zero or an
    overflow can occur: NaN, a signed infinity, a signed zero, or a real
    number, with the rules of IEEE 754 for the first three. A result of
    magnitude 2^1024 - 2^970 or more is an infinity, as rounding to nearest
    gives; below that the arithmetic is exact: rounding and underflow are
    not modelled. [finite r] stands for an [r] that is not zero and whose
    magnitude is below [overflow]; [of_R] builds the double of a real. *)
Module Double.
Inductive t : Type :=
  | nan
  | infinity (negative : bool)
  | zero (negative : bool)
  | finite (r : R).

Definition overflow : R := (2 ^ 1024 - 2 ^ 970)%R.

Definition of_R (r : R) : t :=
  if Req_dec_T r 0 then zero false
  else if Rltb (Rabs r) overflow then finite r
  else infinity (Rltb r 0).

(** The conversion of an [int] *)
Definition of_Z (z : Z) : t := of_R (IZR z).

Definition signbit (x : t) : bool :=
  match x with
  | nan => false
  | infinity negative | zero negative => negative
  | finite r => Rltb r 0
  end.



(** [x * y]: infinity times zero is NaN. *)
Definition mul (x y : t) : t :=
  match x, y with
  | nan, _ | _, nan => nan
  | infinity _, zero _ | zero _, infinity _ => nan
  | infinity _, _ | _, infinity _ => infinity (xorb (signbit x) (signbit y))
  | zero _, _ | _, zero _ => zero (xorb (signbit x) (signbit y))
  | finite a, finite b => of_R (a * b)
  end.

(** [x / y]: a number that is not zero, divided by a zero, is an infinity;
    zero by zero and infinity by infinity are NaN. *)
Definition div (x y : t) : t :=
  match x, y with
  | nan, _ | _, nan => nan
  | infinity _, infinity _ | zero _, zero _ => nan
  | infinity _, _ | _, zero _ => infinity (xorb (signbit x) (signbit y))
  | zero _, _ | _, infinity _ => zero (xorb (signbit x) (signbit y))
  | finite a, finite b => of_R (a / b)
  end.

(** [x + y]: the sum of two opposite infinities is NaN; an exact sum of
    zero is +0. *)
Definition add (x y : t) : t :=
  match x, y with
  | nan, _ | _, nan => nan
  | infinity s, infinity s' => if Bool.eqb s s' then infinity s else nan
  | infinity s, _ | _, infinity s => infinity s
  | zero s, zero s' => zero (s && s')
  | zero _, finite r | finite r, zero _ => finite r
  | finite a, finite b => of_R (a + b)
  end.

(** [std::tanh(x)]: tanh(±0) = ±0, tanh(±inf) = ±1, tanh(NaN) = NaN. *)
Definition tanh (x : t) : t :=
  match x with
  | nan => nan
  | infinity negative => finite (if negative then -1 else 1)%R
  | zero negative => zero negative
  | finite r => finite (Rtrigo_def.tanh r)
  end.

Definition to_R (x : t) : R :=
  match x with finite r => r | _ => 0%R end.

(** [x < y] and [x <= y]: false when either side is NaN. *)
Definition ltb (x y : t) : bool :=
  match x, y with
  | nan, _ | _, nan => false
  | infinity s, infinity s' => s && negb s'
  | infinity s, _ => s
  | _, infinity s => negb s
  | _, _ => Rltb (to_R x) (to_R y)
  end.

End Double.

(* ===================================================================== *)
(** * [State<N, M, bool>] *)
(* ===================================================================== *)

Module State.
(** [static_assert(N != 0 && M != 0, "invalid size")]: the design
    document calls this failure [InvalidDimension]. *)
Inductive error : Type := invalid_size.

Record t : Type := Build
  { rows : nat; cols : nat; _elements : list (list bool) }.

(** [state.at(row, col)] and the read [state[row][col]] *)
Definition at_ (state : t) (row col : nat) : bool :=
  (_elements state !!! row) !!! col.

(** [state[row][col] = value] *)
Definition assign (state : t) (row col : nat) (value : bool) : t :=
  {| rows := rows state; cols := cols state;
     _elements :=
       <[ row := <[ col := value ]> (_elements state !!! row) ]>
         (_elements state) |}.

(** [init(value)] *)
Definition init (state : t) (value : bool) : t :=
  loop (rows state) (fun n st =>
    loop (cols state) (fun m st => assign st n m value) st) state.

(** The storage of a [State<N, M, bool>] before a constructor fills it. *)
Definition storage (N M : nat) : t :=
  {| rows := N; cols := M; _elements := replicate N (replicate M false) |}.

(** [State<N, M, bool>(init)]: the class is instantiated only when the
    static assertion holds. *)
Definition create (N M : nat) (value : bool) : error + t :=
  if negb (N =? 0) && negb (M =? 0)
  then inr (init (storage N M) value)
  else inl invalid_size.

(** [State(const State& other)] and [operator=]: an element-wise copy. *)
Definition copy (other : t) : t :=
  loop (rows other) (fun n st =>
    loop (cols other) (fun m st => assign st n m (at_ other n m)) st)
    (storage (rows other) (cols other)).

(** [sum<U>()] for an integer [U]: a [bool] cell adds 0 or 1. The inner
    loop runs to [N], as in the source. *)
Definition sum (state : t) : Z :=
  loop (rows state) (fun n sum =>
    loop (rows state) (fun m sum =>
      (sum + (if at_ state n m then 1 else 0))%Z) sum) 0%Z.

(** [vec.resize(n)]: the first [n] elements are kept, new ones are [U()]. *)
Definition resize {U : Type} (n : nat) (zero : U) (vec : list U) : list U :=
  take n vec ++ replicate (n - length vec) zero.

(** [createVector1d<U>(vec)]; [cast] is [static_cast<U>] on [bool] and
    [zero] is [U()]. *)
Definition createVector1d {U : Type} (cast : bool -> U) (zero : U)
    (state : t) (vec : list U) : list U :=
  let vec := resize (rows state * cols state) zero vec in
  loop (rows state) (fun i vec =>
    loop (cols state) (fun j vec =>
      <[ i * cols state + j := cast (at_ state i j) ]> vec) vec) vec.

Section Random.
Context {D : Distributions}.

(** [initRand()] for the [bool] payload. *)
Definition initRand (state : t) : Run t :=
  loopM (rows state) (fun n st =>
    loopM (cols state) (fun m st =>
      bit <- draw Statics.State_mt (uniform_int_distribution 0 1) ;;
      ret (assign st n m (bit mod 2 =? 0)%Z)) st) state.
End Random.

(** [State::setSeed(seed)] *)
Definition setSeed (seed : Z) : Run unit :=
  seed_stream Statics.State_mt seed.
End State.

(* ===================================================================== *)
(** * [IsingModel] *)
(* ===================================================================== *)

Module IsingModel.
(** [struct Parameter] *)
Record parameter : Type :=
  { N : Z; z : Z; J : Z; T : R; kb : R }.

Record t : Type := Build { param : parameter }.

Inductive error : Type := division_by_zero.

Definition Tc (self : t) : R :=
  (IZR (z (param self) * J (param self)) / kb (param self))%R.

Definition kbT (self : t) : R := (kb (param self) * T (param self))%R.

(** [kbT()] as the [double] it is: a zero when T is zero, an infinity when
    the product overflows. [kbT] is its value otherwise. *)
Definition kbT_double (self : t) : Double.t :=
  Double.mul (Double.of_R (kb (param self))) (Double.of_R (T (param self))).


Definition isingSpin (b : bool) : Z := if b then 1%Z else (-1)%Z.

(** [energy(state)] *)
Definition energy (self : t) (state : State.t) : Z :=
  loop (State.rows state - 1) (fun r energy =>
    loop (State.cols state - 1) (fun c energy =>
      (energy + - J (param self) *
         (isingSpin (State.at_ state r c) *
            (isingSpin (State.at_ state r (c + 1)) +
             isingSpin (State.at_ state (r + 1) c))))%Z) energy) 0%Z.

(** The body of [randomAction] once [row] and [col] are drawn. *)
Definition randomAction_at (state : State.t) (row col : nat) : State.t :=
  let value := negb (State.at_ state row col) in
  let state := State.assign state row col value in
  let state :=
    if row =? 0 then State.assign state (State.rows state - 1) col value
    else if row =? State.rows state - 1 then State.assign state 0 col value
    else state in
  let state :=
    if col =? 0 then State.assign state row (State.cols state - 1) value
    else if col =? State.cols state - 1 then State.assign state row 0 value
    else state in
  state.

(** [magnetization(state)] *)
Definition magnetization (state : State.t) : Z :=
  loop (State.rows state) (fun n Mag =>
    loop (State.cols state) (fun m Mag =>
      (Mag + isingSpin (State.at_ state n m))%Z) Mag) 0%Z.

(** [averageSpin(state)]: [spinCount] is a [size_t] product, and
    [static_assert(spinCount != 0, "division by zero")] guards it. *)
Definition spinCount (state : State.t) : Z :=
  (Z.of_nat (State.rows state * State.cols state) mod 2 ^ 64)%Z.

Definition averageSpin (state : State.t) : error + Q :=
  if negb (spinCount state =? 0)%Z
  then inr (inject_Z (magnetization state) / inject_Z (spinCount state))%Q
  else inl division_by_zero.

Section Random.
Context {D : Distributions}.

(** [randomAction(state)]: the caller's state is passed by reference;
    the changed state is the result. *)
Definition randomAction (self : t) (state : State.t) : Run State.t :=
  row <- draw Statics.IsingModel_mt
           (uniform_int_distribution 0 (Z.of_nat (State.rows state - 1))) ;;
  col <- draw Statics.IsingModel_mt
           (uniform_int_distribution 0 (Z.of_nat (State.cols state - 1))) ;;
  ret (randomAction_at state (Z.to_nat row) (Z.to_nat col)).

(** [randomAccept(prevEnergy, nextEnergy)], with the threshold as a real
    number: what the code computes where kb·T is not zero and nothing
    overflows. *)
Definition randomAccept (self : t) (prevEnergy nextEnergy : R) : Run bool :=
  u <- draw Statics.IsingModel_mt (uniform_real_distribution 0 1) ;;
  ret (Rltb u (exp (- (nextEnergy - prevEnergy) / kbT self))).
End Random.

(** [IsingModel::setSeed(seed)] *)
Definition setSeed (seed : Z) : Run unit :=
  seed_stream Statics.IsingModel_mt seed.
End IsingModel.

(* ===================================================================== *)
(** * [MetropolisMethod<ObjType, StateType, fEnergy, fAction, fRandAccept>] *)
(* ===================================================================== *)

Module MetropolisMethod.
Section Template.
(** The template parameters. [double] is the type of the energies and
    [lt] its comparison [<]. The trial state is a copy: values are
    immutable here, so the copy is the value itself. *)
Variables ObjType StateType double : Type.
Variable lt : double -> double -> bool.
Variable fEnergy : ObjType -> StateType -> double.
Variable fAction : ObjType -> StateType -> Run StateType.
Variable fRandAccept : ObjType -> double -> double -> Run bool.

(** [update(state)] *)
Definition update (obj : ObjType) (state : StateType) : Run StateType :=
  let prevEnergy := fEnergy obj state in
  nextState <- fAction obj state ;;
  let nextEnergy := fEnergy obj nextState in
  if lt nextEnergy prevEnergy
  then ret nextState
  else
    accepted <- fRandAccept obj prevEnergy nextEnergy ;;
    if accepted then ret nextState else ret state.

(** [optimize<stepCount>(state)] *)
Definition optimize (stepCount : nat) (obj : ObjType) (state : StateType)
    : Run StateType :=
  loopM stepCount (fun _ st => update obj st) state.
End Template.
End MetropolisMethod.

(** The instance the drivers build:
    [MetropolisMethod<IsingModel, State<N, M, bool>, &IsingModel::energy,
    &IsingModel::randomAction, &IsingModel::randomAccept>]. The integer
    energies reach [randomAccept] as the [double]s they are. *)
Module IsingMetropolis.
Section Random.
Context {D : Distributions}.

Definition fRandAccept (self : IsingModel.t) (prev next : Z) : Run bool :=
  IsingModel.randomAccept self (IZR prev) (IZR next).

Definition update : IsingModel.t -> State.t -> Run State.t :=
  MetropolisMethod.update IsingModel.t State.t Z Z.ltb
    IsingModel.energy IsingModel.randomAction fRandAccept.

Definition optimize : nat -> IsingModel.t -> State.t -> Run State.t :=
  MetropolisMethod.optimize IsingModel.t State.t Z Z.ltb
    IsingModel.energy IsingModel.randomAction fRandAccept.
End Random.
End IsingMetropolis.

(* ===================================================================== *)
(** * [IsingHeatBathMethod<LatticeType>] *)
(* ===================================================================== *)

Module IsingHeatBathMethod.
Import IsingModel.

(** [IsingModel *ising]: the sampler refers to a model it does not own. *)
Record t : Type := Build { ising : IsingModel.t }.

(** [neighborSpin] of [IsingHeatBathMethod<LatticeType::Square>] *)
Definition neighborSpin_Square (state : State.t) (row col : nat) : Z :=
  let N := State.rows state in
  let M := State.cols state in
  let spin := 0%Z in
  if (2 <? N) && (2 <? M) then
    let up := if row =? 0 then N - 2 else row - 1 in
    let down := if row =? N - 1 then 1 else row + 1 in
    let left := if col =? 0 then M - 2 else col - 1 in
    let right := if col =? M - 1 then 1 else col + 1 in
    (isingSpin (State.at_ state up col) +
     isingSpin (State.at_ state down col) +
     isingSpin (State.at_ state row left) +
     isingSpin (State.at_ state row right))%Z
  else
    let spin :=
      if 2 <? N then
        let up := if row =? 0 then N - 2 else row - 1 in
        let down := if row =? N - 1 then 1 else row + 1 in
        (spin + (isingSpin (State.at_ state up col) +
                 isingSpin (State.at_ state down col)))%Z
      else spin in
    let spin :=
      if 2 <? M then
        let left := if col =? 0 then M - 2 else col - 1 in
        let right := if col =? M - 1 then 1 else col + 1 in
        (spin + (isingSpin (State.at_ state row left) +
                 isingSpin (State.at_ state row right)))%Z
      else spin in
    spin.

(** [neighborSpin] of [IsingHeatBathMethod<LatticeType::Triangle>] *)
Definition neighborSpin_Triangle (state : State.t) (row col : nat) : Z :=
  let N := State.rows state in
  let M := State.cols state in
  let spin := 0%Z in
  if (2 <? N) && (2 <? M) then
    let up := if row =? 0 then N - 2 else row - 1 in
    let down := if row =? N - 1 then 1 else row + 1 in
    let left := if col =? 0 then M - 2 else col - 1 in
    let right := if col =? M - 1 then 1 else col + 1 in
    if row mod 2 =? 0 then
      (isingSpin (State.at_ state up col) +
       isingSpin (State.at_ state up right) +
       isingSpin (State.at_ state row left) +
       isingSpin (State.at_ state row right) +
       isingSpin (State.at_ state down col) +
       isingSpin (State.at_ state down right))%Z
    else
      (isingSpin (State.at_ state up left) +
       isingSpin (State.at_ state up col) +
       isingSpin (State.at_ state row left) +
       isingSpin (State.at_ state row right) +
       isingSpin (State.at_ state down left) +
       isingSpin (State.at_ state down col))%Z
  else
    let spin :=
      if 2 <? N then
        let up := if row =? 0 then N - 2 else row - 1 in
        let down := if row =? N - 1 then 1 else row + 1 in
        (spin + (isingSpin (State.at_ state up col) +
                 isingSpin (State.at_ state down col)))%Z
      else spin in
    let spin :=
      if 2 <? M then
        let left := if col =? 0 then M - 2 else col - 1 in
        let right := if col =? M - 1 then 1 else col + 1 in
        (spin + (isingSpin (State.at_ state row left) +
                 isingSpin (State.at_ state row right)))%Z
      else spin in
    spin.

(** [neighborSpin] of [IsingHeatBathMethod<LatticeType::Rhombus>] *)
Definition neighborSpin_Rhombus (state : State.t) (row col : nat) : Z :=
  let N := State.rows state in
  let M := State.cols state in
  let spin := 0%Z in
  if (2 <? N) && (2 <? M) then
    let up := if row =? 0 then N - 2 else row - 1 in
    let down := if row =? N - 1 then 1 else row + 1 in
    let left := if col =? 0 then M - 2 else col - 1 in
    let right := if col =? M - 1 then 1 else col + 1 in
    if row mod 2 =? 0 then
      (isingSpin (State.at_ state up col) +
       isingSpin (State.at_ state up right) +
       isingSpin (State.at_ state down col) +
       isingSpin (State.at_ state down right))%Z
    else
      (isingSpin (State.at_ state up left) +
       isingSpin (State.at_ state up col) +
       isingSpin (State.at_ state down left) +
       isingSpin (State.at_ state down col))%Z
  else
    let spin :=
      if 2 <? N then
        let up := if row =? 0 then N - 2 else row - 1 in
        let down := if row =? N - 1 then 1 else row + 1 in
        (spin + (isingSpin (State.at_ state up col) +
                 isingSpin (State.at_ state down col)))%Z
      else spin in
    let spin :=
      if 2 <? M then
        let left := if col =? 0 then M - 2 else col - 1 in
        let right := if col =? M - 1 then 1 else col + 1 in
        (spin + (isingSpin (State.at_ state row left) +
                 isingSpin (State.at_ state row right)))%Z
      else spin in
    spin.

(** [neighborSpin] of [IsingHeatBathMethod<LatticeType::Hexagonal>] *)
Definition neighborSpin_Hexagonal (state : State.t) (row col : nat) : Z :=
  let N := State.rows state in
  let M := State.cols state in
  let spin := 0%Z in
  if (2 <? N) && (2 <? M) then
    let up := if row =? 0 then N - 2 else row - 1 in
    let down := if row =? N - 1 then 1 else row + 1 in
    let left := if col =? 0 then M - 2 else col - 1 in
    let right := if col =? M - 1 then 1 else col + 1 in
    if row mod 4 =? 0 then
      (isingSpin (State.at_ state up col) +
       isingSpin (State.at_ state down col) +
       isingSpin (State.at_ state down right))%Z
    else if row mod 4 =? 1 then
      (isingSpin (State.at_ state up right) +
       isingSpin (State.at_ state up col) +
       isingSpin (State.at_ state down col))%Z
    else if row mod 4 =? 2 then
      (isingSpin (State.at_ state up col) +
       isingSpin (State.at_ state down left) +
       isingSpin (State.at_ state down col))%Z
    else
      (isingSpin (State.at_ state up col) +
       isingSpin (State.at_ state up right) +
       isingSpin (State.at_ state down col))%Z
  else
    let spin :=
      if 2 <? N then
        let up := if row =? 0 then N - 2 else row - 1 in
        let down := if row =? N - 1 then 1 else row + 1 in
        (spin + (isingSpin (State.at_ state up col) +
                 isingSpin (State.at_ state down col)))%Z
      else spin in
    let spin :=
      if 2 <? M then
        let left := if col =? 0 then M - 2 else col - 1 in
        let right := if col =? M - 1 then 1 else col + 1 in
        (spin + (isingSpin (State.at_ state row left) +
                 isingSpin (State.at_ state row right)))%Z
      else spin in
    spin.

(** The specialisation selected by the template argument. *)
Definition neighborSpin (L : LatticeType) : State.t -> nat -> nat -> Z :=
  match L with
  | Square => neighborSpin_Square
  | Triangle => neighborSpin_Triangle
  | Rhombus => neighborSpin_Rhombus
  | Hexagonal => neighborSpin_Hexagonal
  end.

(** [0.5 * (std::tanh(ising->param.J / ising->kbT() * spin) + 1.0)] *)
Definition transition_probability (self : t) (spin : Double.t) : Double.t :=
  Double.mul (Double.of_R 0.5)
    (Double.add
       (Double.tanh
          (Double.mul
             (Double.div (Double.of_Z (J (param (ising self))))
                (kbT_double (ising self)))
             spin))
       (Double.of_R 1.0)).

(** The body of [update] once [row], [col] and [value] are known. *)
Definition update_at (state : State.t) (row col : nat) (value : bool)
    : State.t :=
  let state := State.assign state row col value in
  let state :=
    if row =? 0 then State.assign state (State.rows state - 1) col value
    else if row =? State.rows state - 1 then State.assign state 0 col value
    else state in
  let state :=
    if col =? 0 then State.assign state row (State.cols state - 1) value
    else if col =? State.cols state - 1 then State.assign state row 0 value
    else state in
  state.

Section Random.
Context {D : Distributions}.

(** [update(state)] *)
Definition update (L : LatticeType) (self : t) (state : State.t)
    : Run State.t :=
  let mt := Statics.IsingHeatBathMethod_mt L in
  row <- draw mt
           (uniform_int_distribution 0 (Z.of_nat (State.rows state - 1))) ;;
  col <- draw mt
           (uniform_int_distribution 0 (Z.of_nat (State.cols state - 1))) ;;
  let spin := neighborSpin L state (Z.to_nat row) (Z.to_nat col) in
  u <- draw mt (uniform_real_distribution 0 1) ;;
  let value :=
    Double.ltb (Double.of_R u)
      (transition_probability self (Double.of_Z spin)) in
  ret (update_at state (Z.to_nat row) (Z.to_nat col) value).

(** [optimize<stepCount>(state)] *)
Definition optimize (L : LatticeType) (stepCount : nat) (self : t)
    (state : State.t) : Run State.t :=
  loopM stepCount (fun _ st => update L self st) state.
End Random.

(** [IsingHeatBathMethod<L>::setSeed(seed)] *)
Definition setSeed (L : LatticeType) (seed : Z) : Run unit :=
  seed_stream (Statics.IsingHeatBathMethod_mt L) seed.
End IsingHeatBathMethod.

(* ===================================================================== *)
(** * [namespace GradientDescent] *)
(* ===================================================================== *)

Module GradientDescent.
Local Open Scope R_scope.

(** [static constexpr double h = 1e-7], [c = 1.0 / (2.0 * h)] and
    [eps = 1e-7]. *)
Definition h : R := 1e-7.
Definition c : R := 1.0 / (2.0 * h).






End GradientDescent.

(* ===================================================================== *)
(** * [CellItem] of the viewer: the simulation it steps *)
(* ===================================================================== *)

(** The fields [updateCell] reads and writes; painting and the signals to
    the widgets are left out. [method] is the [enum class Method] as the
    integer [setMethod] casts: 0 is Metropolis, 1 is HeatBath. *)
Module CellItem.
Record t : Type := Build
  { stepCount : Z;
    _maxCount : Z;
    method : Z;
    state : State.t;
    ising : IsingModel.t }.

(** [setMaxCount(count)] and [setMethod(index)] *)
Definition setMaxCount (self : t) (count : Z) : t :=
  {| stepCount := stepCount self; _maxCount := count; method := method self;
     state := state self; ising := ising self |}.

Definition setMethod (self : t) (index : Z) : t :=
  {| stepCount := stepCount self; _maxCount := _maxCount self;
     method := index; state := state self; ising := ising self |}.

Section Samplers.
(** [metropolis.update(state)] and [headBath.update(state)]: the viewer
    takes its two samplers from the headers [metropolismethod.h] and
    [isingheatbathmethod.h]; here they are any two updates of a lattice
    that may draw from the generators, [IsingMetropolis.update] and
    [IsingHeatBathMethod.update Square] among them. *)
Variable metropolis : IsingModel.t -> State.t -> Run State.t.
Variable headBath : IsingModel.t -> State.t -> Run State.t.

(** [updateCell()] *)
Definition updateCell (self : t) : Run t :=
  if (stepCount self <? _maxCount self)%Z then
    state' <-
      (if (method self =? 0)%Z then metropolis (ising self) (state self)
       else if (method self =? 1)%Z then headBath (ising self) (state self)
       else ret (state self)) ;;
    ret {| stepCount := (stepCount self + 1)%Z;
           _maxCount := _maxCount self; method := method self;
           state := state'; ising := ising self |}
  else ret self.

(** [K] timeouts of the timer: [K] calls of [updateCell]. *)
Definition timeouts (K : nat) (self : t) : Run t :=
  loopM K (fun _ item => updateCell item) self.
End Samplers.
End CellItem.

(* ===================================================================== *)
(** * Vocabulary of the design document *)
(* ===================================================================== *)

(** A site is a (row, column) pair; a bond is a pair of sites. *)
Definition site : Type := nat * nat.
Definition bond : Type := site * site.

Definition spinAt (state : State.t) (p : site) : Z :=
  IsingModel.isingSpin (State.at_ state p.1 p.2).

Definition Zsum (l : list Z) : Z := foldr Z.add 0%Z l.

(** The sum of spin(i)·spin(j) over a list of bonds. *)
Definition bondSum (state : State.t) (bonds : list bond) : Z :=
  Zsum (map (fun b : bond => (spinAt state b.1 * spinAt state b.2)%Z) bonds).

(** Every rightward and every downward nearest-neighbour pair of an N×M
    grid, as the design document words the energy. *)
Definition rightwardPairs (N M : nat) : list bond :=
  r ← seq 0 N; c ← seq 0 (M - 1); [((r, c), (r, c + 1))].

Definition downwardPairs (N M : nat) : list bond :=
  r ← seq 0 (N - 1); c ← seq 0 M; [((r, c), (r + 1, c))].

Definition allPairs (N M : nat) : list bond :=
  rightwardPairs N M ++ downwardPairs N M.

(** The pairs whose first site lies off the last row and the last column:
    the rightward and the downward pair of each such site. *)
Definition innerPairs (N M : nat) : list bond :=
  r ← seq 0 (N - 1); c ← seq 0 (M - 1);
  [((r, c), (r, c + 1)); ((r, c), (r + 1, c))].

(** The default model, [IsingModel()] : N = z = J = 1, T = 0.1, kb = 1. *)
Definition default_model : IsingModel.t :=
  IsingModel.Build
    {| IsingModel.N := 1; IsingModel.z := 1; IsingModel.J := 1;
       IsingModel.T := 0.1; IsingModel.kb := 1.0 |}.

(** A 2×2 lattice with one spin down. *)
Definition lattice_2x2 : State.t :=
  State.Build 2 2 [[true; true]; [true; false]].

(** The storage invariant of [State<N, M, bool>]: N rows of M cells. *)
Definition well_formed (state : State.t) : Prop :=
  length (State._elements state) = State.rows state /\
  Forall (fun row => length row = State.cols state) (State._elements state).

(** The 4×4 lattice with every spin up, [State<4, 4, bool>(true)]. *)
Definition lattice_4x4_up : State.t :=
  State.Build 4 4 (replicate 4 (replicate 4 true)).

(** The cells one single-site update writes: the chosen site, its image on
    the opposite edge row when the chosen row is an edge row, and its image
    on the opposite edge column when the chosen column is an edge column. *)
Definition written_cells (N M row col : nat) : list site :=
  (row, col) ::
  (if row =? 0 then [(N - 1, col)]
   else if row =? N - 1 then [(0, col)] else []) ++
  (if col =? 0 then [(row, M - 1)]
   else if col =? M - 1 then [(row, 0)] else []).

Definition site_in (p : site) (cells : list site) : bool :=
  existsb (fun q : site => (p.1 =? q.1) && (p.2 =? q.2)) cells.

(** The three positions along an axis, and the fold of the design
    document: before 0 comes size-2, after size-1 comes 1. *)
Inductive offset : Type := Prev | Same | Next.

Definition folded (size i : nat) (d : offset) : nat :=
  match d with
  | Prev => if i =? 0 then size - 2 else i - 1
  | Same => i
  | Next => if i =? size - 1 then 1 else i + 1
  end.

(** The neighbour set of each topology, as (row offset, column offset),
    for a site on row [row]. *)
Definition neighbours (L : LatticeType) (row : nat) : list (offset * offset) :=
  match L with
  | Square => [(Prev, Same); (Next, Same); (Same, Prev); (Same, Next)]
  | Triangle =>
      if row mod 2 =? 0
      then [(Prev, Same); (Prev, Next); (Same, Prev); (Same, Next);
            (Next, Same); (Next, Next)]
      else [(Prev, Prev); (Prev, Same); (Same, Prev); (Same, Next);
            (Next, Prev); (Next, Same)]
  | Rhombus =>
      if row mod 2 =? 0
      then [(Prev, Same); (Prev, Next); (Next, Same); (Next, Next)]
      else [(Prev, Prev); (Prev, Same); (Next, Prev); (Next, Same)]
  | Hexagonal =>
      if row mod 4 =? 0 then [(Prev, Same); (Next, Same); (Next, Next)]
      else if row mod 4 =? 1 then [(Prev, Next); (Prev, Same); (Next, Same)]
      else if row mod 4 =? 2 then [(Prev, Same); (Next, Prev); (Next, Same)]
      else [(Prev, Same); (Prev, Next); (Next, Same)]
  end.

(** The all-up 4×4 lattice with site (1, 3) and its column image (1, 0)
    down. *)
Definition lattice_4x4_defect : State.t :=
  State.Build 4 4
    [[true; true; true; true];
     [false; true; true; false];
     [true; true; true; true];
     [true; true; true; true]].

(** A 4×4 lattice whose row 2 is down and whose other rows are up. *)
Definition lattice_4x4_stripe : State.t :=
  State.Build 4 4
    [[true; true; true; true];
     [true; true; true; true];
     [false; false; false; false];
     [true; true; true; true]].

(** A 2×5 lattice: degenerate along the rows. *)
Definition lattice_2x5 : State.t :=
  State.Build 2 5
    [[true; false; true; true; false];
     [false; true; true; false; true]].

(** A method draws from stream [s] alone: its result and the state it
    leaves [s] in are functions of the state it finds [s] in, and it leaves
    every other stream as it was. *)
Definition draws_from {A : Type} (s : Statics.stream) (m : Run A) : Prop :=
  (forall w w' : Statics.t,
     Statics.get s w = Statics.get s w' ->
     (m w).1 = (m w').1 /\
     Statics.get s (m w).2 = Statics.get s (m w').2) /\
  (forall (w : Statics.t) (s' : Statics.stream),
     s <> s' -> Statics.get s' (m w).2 = Statics.get s' w).

(** The lattices after each of [K] successive updates. *)
Fixpoint trajectory (update : State.t -> Run State.t) (K : nat)
    (state : State.t) : Run (list State.t) :=
  match K with
  | O => ret []
  | S K' =>
      state' <- update state ;;
      rest <- trajectory update K' state' ;;
      ret (state' :: rest)
  end.

(** [state.setSeed(seed); ising.setSeed(seed); hbMethod.setSeed(seed);],
    as the fixed-seed driver of [isingspinconfig.h] does. *)
Definition seed_all (L : LatticeType) (seed : Z) : Run unit :=
  _ <- State.setSeed seed ;;
  _ <- IsingModel.setSeed seed ;;
  IsingHeatBathMethod.setSeed L seed.

(** Statics with every generator seeded by [seed]. *)
Definition statics_seeded (seed : Z) : Statics.t :=
  let g := mt19937.seed seed in Statics.Build g g g g g g.

(** One implementation of the two distributions, to run the model on
    concrete inputs: one engine output per draw, reduced to the range. *)
Definition modulo_distributions : Distributions :=
  {| uniform_int_distribution a b g :=
       let '(y, g') := mt19937.next g in ((a + y mod (b - a + 1))%Z, g');
     uniform_real_distribution a b g :=
       let '(y, g') := mt19937.next g in
       ((a + (b - a) * (IZR y / 4294967296))%R, g') |}.

(** A second model object: [IsingModel] with J = 2. *)
Definition second_model : IsingModel.t :=
  IsingModel.Build
    {| IsingModel.N := 1; IsingModel.z := 1; IsingModel.J := 2;
       IsingModel.T := 0.1; IsingModel.kb := 1.0 |}.

(** The lattice of N rows of M cells, every cell [value]. *)
Definition uniform (N M : nat) (value : bool) : State.t :=
  State.Build N M (replicate N (replicate M value)).

(** Two lattices of the same dimensions that hold the same value in every
    cell of the N×M array; what lies outside the array is not compared. *)
Definition agree (state state' : State.t) : Prop :=
  State.rows state = State.rows state' /\
  State.cols state = State.cols state' /\
  forall r c : nat,
    r < State.rows state -> c < State.cols state ->
    State.at_ state r c = State.at_ state' r c.

(** The number of neighbours a site has in each topology. *)
Definition coordination (L : LatticeType) : Z :=
  match L with
  | Square => 4
  | Triangle => 6
  | Rhombus => 4
  | Hexagonal => 3
  end.

(** The all-up 4×4 lattice stored with a fifth row and a fifth column of
    other values behind it: what a read past the array would see. *)
Definition lattice_4x4_up_padded : State.t :=
  State.Build 4 4
    [[true; true; true; true; false];
     [true; true; true; true; false];
     [true; true; true; true; false];
     [true; true; true; true; false];
     [false; false; false; false; false]].

(** What the C++ standard asks of the two distributions: an integer draw
    on [a, b] lies in [a, b], and a real draw on [0, 1) lies in [0, 1). *)
Definition in_range (D : Distributions) : Prop :=
  forall (a b : Z) (g : mt19937.engine),
    (a <= b)%Z ->
    (a <= (uniform_int_distribution a b g).1 <= b)%Z.

Definition in_unit_interval (D : Distributions) : Prop :=
  forall g : mt19937.engine,
    (0 <= (uniform_real_distribution 0 1 g).1 < 1)%R.

(** The first row and the last row hold the same values, and so do the
    first and the last column: the mirrored-edge storage. *)
Definition edge_mirrored (state : State.t) : Prop :=
  forall r c : nat,
    r < State.rows state -> c < State.cols state ->
    State.at_ state (State.rows state - 1) c = State.at_ state 0 c /\
    State.at_ state r (State.cols state - 1) = State.at_ state r 0.

(** The four corners of the array. *)
Definition corner (N M row col : nat) : Prop :=
  (row = 0 \/ row = N - 1) /\ (col = 0 \/ col = M - 1).








(* ===================================================================== *)
(** * The generator against the C++ standard *)
(* ===================================================================== *)

(** The standard fixes the 10000th output of a default-constructed
    [std::mt19937] (seed 5489) at 4123659995. *)
Example mt19937_10000th :
  (mt19937.next (mt19937.discard (100 * 100 - 1) (mt19937.seed 5489))).1 =
  4123659995%Z.
Proof. vm_compute. reflexivity. Qed.

Example mt19937_seed_1 :
  mt19937.outputs 3 (mt19937.seed 1) =
  [1791095845; 4282876139; 3093770124]%Z.
Proof. vm_compute. reflexivity. Qed.

(* ===================================================================== *)
(** * Loops and sums *)
(* ===================================================================== *)

Lemma loop_ext {A : Type} (n : nat) (f g : nat -> A -> A) (a : A) :
  (forall i x, f i x = g i x) -> loop n f a = loop n g a.
Proof.
  intros Hfg. unfold loop. generalize (seq 0 n) as l. intros l. revert a.
  induction l as [|i l IH]; intros a; simpl; [reflexivity|].
  rewrite Hfg. apply IH.
Qed.

Lemma loop_add (n : nat) (f : nat -> Z) (a : Z) :
  loop n (fun i acc => (acc + f i)%Z) a = (a + Zsum (map f (seq 0 n)))%Z.
Proof.
  unfold loop. generalize (seq 0 n) as l. intros l. revert a.
  induction l as [|i l IH]; intros a; simpl; [lia|].
  rewrite IH. lia.
Qed.

Lemma Zsum_app (l1 l2 : list Z) : Zsum (l1 ++ l2) = (Zsum l1 + Zsum l2)%Z.
Proof. induction l1 as [|v l1 IH]; simpl; lia. Qed.

Lemma Zsum_scale (k : Z) {A : Type} (f : A -> Z) (l : list A) :
  Zsum (map (fun v => (k * f v)%Z) l) = (k * Zsum (map f l))%Z.
Proof. induction l as [|v l IH]; simpl; lia. Qed.

Lemma Zsum_bind {A B : Type} (h : B -> Z) (k : A -> list B) (l : list A) :
  Zsum (map h (l ≫= k)) = Zsum (map (fun v => Zsum (map h (k v))) l).
Proof.
  induction l as [|v l IH]; [reflexivity|].
  rewrite bind_cons, map_app, Zsum_app, IH. reflexivity.
Qed.

Lemma Zsum_map_ext {A : Type} (f g : A -> Z) (l : list A) :
  (forall v, f v = g v) -> Zsum (map f l) = Zsum (map g l).
Proof. intros Hfg. induction l as [|v l IH]; simpl; [|rewrite Hfg, IH]; reflexivity. Qed.

Lemma energy_innerPairs (self : IsingModel.t) (state : State.t) :
  IsingModel.energy self state =
  (- IsingModel.J (IsingModel.param self) *
     bondSum state (innerPairs (State.rows state) (State.cols state)))%Z.
Proof.
  unfold IsingModel.energy, bondSum, innerPairs.
  set (J := IsingModel.J (IsingModel.param self)).
  set (term := fun r c : nat =>
    (IsingModel.isingSpin (State.at_ state r c) *
       (IsingModel.isingSpin (State.at_ state r (c + 1)) +
        IsingModel.isingSpin (State.at_ state (r + 1) c)))%Z).
  rewrite (loop_ext _ _
    (fun r e => (e + - J * Zsum (map (term r) (seq 0 (State.cols state - 1))))%Z)).
  2:{ intros r e. rewrite (loop_add _ (fun c => (- J * term r c)%Z)).
      rewrite Zsum_scale. reflexivity. }
  rewrite (loop_add _ (fun r => (- J * Zsum (map (term r) (seq 0 (State.cols state - 1))))%Z)).
  rewrite Zsum_scale, Zsum_bind, Z.add_0_l.
  f_equal. apply Zsum_map_ext. intros r.
  rewrite Zsum_bind. apply Zsum_map_ext. intros c.
  unfold term, spinAt. simpl. lia.
Qed.

Lemma elem_of_innerPairs (N M : nat) (b : bond) :
  b ∈ innerPairs N M <->
  b.1.1 < N - 1 /\ b.1.2 < M - 1 /\
  (b.2 = (b.1.1, b.1.2 + 1) \/ b.2 = (b.1.1 + 1, b.1.2)).
Proof.
  unfold innerPairs. rewrite list_elem_of_bind. split.
  - intros (r & Hb & Hr). apply list_elem_of_bind in Hb as (c & Hb & Hc).
    apply elem_of_seq in Hr, Hc.
    apply elem_of_cons in Hb as [->|Hb]; simpl; [intuition lia|].
    apply elem_of_cons in Hb as [->|Hb]; simpl; [intuition lia|].
    inversion Hb.
  - destruct b as [[r c] q]. simpl. intros (Hr & Hc & Hq).
    exists r. split; [|apply elem_of_seq; lia].
    apply list_elem_of_bind. exists c. split; [|apply elem_of_seq; lia].
    destruct Hq as [->| ->]; [left | right; left].
Qed.

Lemma NoDup_innerPairs (N M : nat) : NoDup (innerPairs N M).
Proof.
  unfold innerPairs. apply NoDup_bind; [| |apply NoDup_seq].
  - intros r1 r2 b _ _ H1 H2.
    apply list_elem_of_bind in H1 as (c1 & H1 & _).
    apply list_elem_of_bind in H2 as (c2 & H2 & _).
    apply elem_of_cons in H1 as [->|H1];
      [|apply elem_of_cons in H1 as [->|H1]; [|inversion H1]];
      (apply elem_of_cons in H2 as [H2|H2];
       [|apply elem_of_cons in H2 as [H2|H2]; [|inversion H2]]);
      inversion H2; lia.
  - intros r _. apply NoDup_bind; [| |apply NoDup_seq].
    + intros c1 c2 b _ _ H1 H2.
      apply elem_of_cons in H1 as [->|H1];
        [|apply elem_of_cons in H1 as [->|H1]; [|inversion H1]];
        (apply elem_of_cons in H2 as [H2|H2];
         [|apply elem_of_cons in H2 as [H2|H2]; [|inversion H2]]);
        inversion H2; lia.
    + intros c _. apply NoDup_cons. split.
      * intros Hin. apply list_elem_of_singleton in Hin. inversion Hin. lia.
      * apply NoDup_singleton.
Qed.

(* ===================================================================== *)
(** * C1: the pairs [energy] sums over *)
(* ===================================================================== *)

(** C1, as the design document states it, fails: on the 2×2 lattice
    [[up, up], [up, down]] with J = 1 the sum over every rightward and
    downward pair is 0, and [energy] returns -2: the loops stop one short
    of the last row and of the last column, so the rightward pair of the
    last row and the downward pair of the last column are left out. *)
Lemma C1_energy_all_pairs_counterexample :
  IsingModel.energy default_model lattice_2x2 = (-2)%Z /\
  (- IsingModel.J (IsingModel.param default_model) *
     bondSum lattice_2x2 (allPairs 2 2))%Z = 0%Z /\
  IsingModel.energy default_model lattice_2x2 <>
  (- IsingModel.J (IsingModel.param default_model) *
     bondSum lattice_2x2
       (allPairs (State.rows lattice_2x2) (State.cols lattice_2x2)))%Z.
Proof. vm_compute. repeat split; congruence. Qed.

(** C1, amended: for every lattice state, [energy] is -J times the sum of
    spin(i)·spin(j) over the rightward and the downward pair of each site
    that is neither on the last row nor on the last column; each such pair
    is counted exactly once, and both sites of a counted pair are on the
    grid next to each other (no wraparound pair). *)
Theorem C1_energy_inner_pairs (self : IsingModel.t) (state : State.t) :
  let N := State.rows state in
  let M := State.cols state in
  IsingModel.energy self state =
    (- IsingModel.J (IsingModel.param self) *
       bondSum state (innerPairs N M))%Z /\
  NoDup (innerPairs N M) /\
  forall b : bond,
    b ∈ innerPairs N M <->
    b.1.1 < N - 1 /\ b.1.2 < M - 1 /\
    (b.2 = (b.1.1, b.1.2 + 1) \/ b.2 = (b.1.1 + 1, b.1.2)).
Proof.
  intros N M. split; [apply energy_innerPairs|].
  split; [apply NoDup_innerPairs|]. intros b. apply elem_of_innerPairs.
Qed.

(* ===================================================================== *)
(** * C2: the cells a single-site update writes *)
(* ===================================================================== *)

Lemma create_4x4_up : State.create 4 4 true = inr lattice_4x4_up.
Proof. reflexivity. Qed.

Lemma explicit_4x4 (state : State.t) :
  State.rows state = 4 -> State.cols state = 4 -> well_formed state ->
  exists a0 a1 a2 a3 b0 b1 b2 b3 c0 c1 c2 c3 d0 d1 d2 d3,
    state = State.Build 4 4
      [[a0; a1; a2; a3]; [b0; b1; b2; b3]; [c0; c1; c2; c3]; [d0; d1; d2; d3]].
Proof.
  destruct state as [N M rows]. simpl. intros -> -> [Hlen Hrows]. simpl in *.
  destruct rows as [|ra [|rb [|rc [|rd [|? ?]]]]]; try discriminate.
  apply Forall_cons in Hrows as [Ha Hrows].
  apply Forall_cons in Hrows as [Hb Hrows].
  apply Forall_cons in Hrows as [Hc Hrows].
  apply Forall_cons in Hrows as [Hd _]. simpl in *.
  destruct ra as [|a0 [|a1 [|a2 [|a3 [|? ?]]]]]; try discriminate.
  destruct rb as [|b0 [|b1 [|b2 [|b3 [|? ?]]]]]; try discriminate.
  destruct rc as [|c0 [|c1 [|c2 [|c3 [|? ?]]]]]; try discriminate.
  destruct rd as [|d0 [|d1 [|d2 [|d3 [|? ?]]]]]; try discriminate.
  exists a0, a1, a2, a3, b0, b1, b2, b3, c0, c1, c2, c3, d0, d1, d2, d3.
  reflexivity.
Qed.

(** An update aimed at the corner (0, 0) of a 4×4 lattice writes the new
    value to (0, 0), (3, 0) and (0, 3) and leaves every other cell, (3, 3)
    among them, as it was. *)
Lemma corner_update_4x4 (state : State.t) (value : bool) (r c : nat) :
  State.rows state = 4 -> State.cols state = 4 -> well_formed state ->
  r < 4 -> c < 4 ->
  State.at_ (IsingHeatBathMethod.update_at state 0 0 value) r c =
    (if ((r =? 0) && (c =? 0)) || ((r =? 3) && (c =? 0)) || ((r =? 0) && (c =? 3))
     then value else State.at_ state r c) /\
  State.at_ (IsingModel.randomAction_at state 0 0) r c =
    (if ((r =? 0) && (c =? 0)) || ((r =? 3) && (c =? 0)) || ((r =? 0) && (c =? 3))
     then negb (State.at_ state 0 0) else State.at_ state r c).
Proof.
  intros HN HM Hwf Hr Hc.
  destruct (explicit_4x4 state HN HM Hwf)
    as (a0&a1&a2&a3&b0&b1&b2&b3&c0&c1&c2&c3&d0&d1&d2&d3&->).
  destruct r as [|[|[|[|r]]]]; try lia;
    destruct c as [|[|[|[|c]]]]; try lia; split; reflexivity.
Qed.

(** An update aimed at an interior site of a 4×4 lattice changes that
    single site. *)
Lemma interior_update_4x4 (state : State.t) (value : bool) (row col r c : nat) :
  State.rows state = 4 -> State.cols state = 4 -> well_formed state ->
  (row = 1 \/ row = 2) -> (col = 1 \/ col = 2) -> r < 4 -> c < 4 ->
  State.at_ (IsingHeatBathMethod.update_at state row col value) r c =
    (if (r =? row) && (c =? col) then value else State.at_ state r c) /\
  State.at_ (IsingModel.randomAction_at state row col) r c =
    (if (r =? row) && (c =? col)
     then negb (State.at_ state row col) else State.at_ state r c).
Proof.
  intros HN HM Hwf Hrow Hcol Hr Hc.
  destruct (explicit_4x4 state HN HM Hwf)
    as (a0&a1&a2&a3&b0&b1&b2&b3&c0&c1&c2&c3&d0&d1&d2&d3&->).
  destruct Hrow as [-> | ->]; destruct Hcol as [-> | ->];
    (destruct r as [|[|[|[|r]]]]; try lia;
     destruct c as [|[|[|[|c]]]]; try lia; split; reflexivity).
Qed.

(** On a 4×4 lattice, a mutation or a heat-bath update aimed at the
    corner (0, 0) sets (3, 0) and (0, 3) to the new value of (0, 0); an
    update aimed at an interior site changes that single site. *)
Lemma update_cells_4x4 (state : State.t) (value : bool) :
  State.rows state = 4 -> State.cols state = 4 -> well_formed state ->
  let heatbath := IsingHeatBathMethod.update_at state 0 0 value in
  let mutated := IsingModel.randomAction_at state 0 0 in
  (State.at_ heatbath 0 0 = value /\
   State.at_ heatbath 3 0 = value /\
   State.at_ heatbath 0 3 = value /\
   State.at_ heatbath 3 3 = State.at_ state 3 3) /\
  (State.at_ mutated 0 0 = negb (State.at_ state 0 0) /\
   State.at_ mutated 3 0 = State.at_ mutated 0 0 /\
   State.at_ mutated 0 3 = State.at_ mutated 0 0 /\
   State.at_ mutated 3 3 = State.at_ state 3 3) /\
  (forall row col r c : nat,
     row = 1 \/ row = 2 -> col = 1 \/ col = 2 -> r < 4 -> c < 4 ->
     State.at_ (IsingHeatBathMethod.update_at state row col value) r c =
       (if (r =? row) && (c =? col) then value else State.at_ state r c) /\
     State.at_ (IsingModel.randomAction_at state row col) r c =
       (if (r =? row) && (c =? col)
        then negb (State.at_ state row col) else State.at_ state r c)).
Proof.
  intros HN HM Hwf heatbath mutated.
  assert (forall r c, r < 4 -> c < 4 ->
            State.at_ heatbath r c =
              (if ((r =? 0) && (c =? 0)) || ((r =? 3) && (c =? 0)) ||
                  ((r =? 0) && (c =? 3))
               then value else State.at_ state r c) /\
            State.at_ mutated r c =
              (if ((r =? 0) && (c =? 0)) || ((r =? 3) && (c =? 0)) ||
                  ((r =? 0) && (c =? 3))
               then negb (State.at_ state 0 0) else State.at_ state r c))
    as Hcorner.
  { intros r c Hr Hc. apply corner_update_4x4; assumption. }
  split; [|split].
  - split; [|split; [|split]]; apply Hcorner; lia.
  - destruct (Hcorner 0 0) as [_ H00]; [lia | lia |].
    destruct (Hcorner 3 0) as [_ H30]; [lia | lia |].
    destruct (Hcorner 0 3) as [_ H03]; [lia | lia |].
    destruct (Hcorner 3 3) as [_ H33]; [lia | lia |].
    rewrite H00, H30, H03, H33. repeat split; reflexivity.
  - intros row col r c Hrow Hcol Hr Hc.
    apply interior_update_4x4; assumption.
Qed.

(** C2 (a defect of the code): on the all-up 4×4 lattice, whose last row
    mirrors the first and whose last column mirrors the first, the
    mutation aimed at the corner (0, 0) turns (0, 0), (3, 0) and (0, 3)
    down and leaves the opposite corner (3, 3) up, and the heat-bath write
    of the value down at (0, 0) does the same: the row image and the
    column image of the site are written, the diagonal image is not. The
    lattice that results no longer has its last row equal to its first;
    a mutation aimed at the interior site (1, 2) changes that site
    alone. *)
Theorem C2_corner_update_leaves_diagonal :
  State._elements (IsingModel.randomAction_at lattice_4x4_up 0 0) =
    [[false; true; true; false];
     [true; true; true; true];
     [true; true; true; true];
     [false; true; true; true]] /\
  State._elements (IsingHeatBathMethod.update_at lattice_4x4_up 0 0 false) =
    [[false; true; true; false];
     [true; true; true; true];
     [true; true; true; true];
     [false; true; true; true]] /\
  State.at_ (IsingModel.randomAction_at lattice_4x4_up 0 0) 3 3 <>
    State.at_ (IsingModel.randomAction_at lattice_4x4_up 0 0) 0 0 /\
  State.at_ (IsingHeatBathMethod.update_at lattice_4x4_up 0 0 false) 3 3 <>
    State.at_ (IsingHeatBathMethod.update_at lattice_4x4_up 0 0 false) 0 0 /\
  edge_mirrored lattice_4x4_up /\
  ~ edge_mirrored (IsingModel.randomAction_at lattice_4x4_up 0 0) /\
  ~ edge_mirrored (IsingHeatBathMethod.update_at lattice_4x4_up 0 0 false) /\
  State._elements (IsingModel.randomAction_at lattice_4x4_up 1 2) =
    [[true; true; true; true];
     [true; true; false; true];
     [true; true; true; true];
     [true; true; true; true]].
Proof.
  split; [reflexivity|]. split; [reflexivity|].
  split; [vm_compute; congruence|]. split; [vm_compute; congruence|].
  split.
  { intros r c Hr Hc. simpl in Hr, Hc.
    destruct r as [|[|[|[|r]]]]; try lia;
      destruct c as [|[|[|[|c]]]]; try lia; split; reflexivity. }
  split.
  { intros Hmirror.
    destruct (Hmirror 3 3) as [Hrow _]; [simpl; lia | simpl; lia |].
    vm_compute in Hrow. discriminate Hrow. }
  split; [|reflexivity].
  intros Hmirror.
  destruct (Hmirror 3 3) as [Hrow _]; [simpl; lia | simpl; lia |].
  vm_compute in Hrow. discriminate Hrow.
Qed.

(* ===================================================================== *)
(** * C3: one Metropolis update *)
(* ===================================================================== *)

Section MetropolisUpdate.
Variables ObjType StateType double : Type.
Variable lt : double -> double -> bool.
Variable fEnergy : ObjType -> StateType -> double.
Variable fAction : ObjType -> StateType -> Run StateType.
Variable fRandAccept : ObjType -> double -> double -> Run bool.

Let update :=
  MetropolisMethod.update ObjType StateType double lt
    fEnergy fAction fRandAccept.

(** C3: one update takes prevE = energy(state), mutates a trial copy,
    takes nextE = energy(trial); when nextE < prevE the trial replaces
    the state and no acceptance draw is made; otherwise the acceptance
    draw is made, the trial replaces the state when it returns true, and
    the state is left as it was when it returns false. *)
Theorem C3_metropolis_update (obj : ObjType) (state : StateType)
    (w : Statics.t) :
  let prevE := fEnergy obj state in
  let trial := (fAction obj state w).1 in
  let w1 := (fAction obj state w).2 in
  let nextE := fEnergy obj trial in
  let accepted := (fRandAccept obj prevE nextE w1).1 in
  let w2 := (fRandAccept obj prevE nextE w1).2 in
  (lt nextE prevE = true -> update obj state w = (trial, w1)) /\
  (lt nextE prevE = false -> accepted = true ->
     update obj state w = (trial, w2)) /\
  (lt nextE prevE = false -> accepted = false ->
     update obj state w = (state, w2)).
Proof.
  intros prevE trial w1 nextE accepted w2.
  subst update. unfold MetropolisMethod.update, bind, ret.
  subst accepted w2 nextE trial w1 prevE.
  destruct (fAction obj state w) as [trial w1]. simpl.
  destruct (lt (fEnergy obj trial) (fEnergy obj state)).
  - repeat split; intros; try discriminate; reflexivity.
  - destruct (fRandAccept obj (fEnergy obj state) (fEnergy obj trial) w1)
      as [[|] w2]; simpl;
      repeat split; intros; try discriminate; reflexivity.
Qed.
End MetropolisUpdate.

(** With the model stream seeded to 1 the mutation drawn on a 4×4 lattice
    aims at site (1, 3): on the lattice with that site down the trial is
    the all-up lattice, its energy is lower, and the update returns it. *)
Example metropolis_accepts_lower_energy :
  let w := (IsingModel.setSeed 1 (statics_seeded 0)).2 in
  IsingModel.energy default_model lattice_4x4_defect = (-10)%Z /\
  IsingModel.energy default_model lattice_4x4_up = (-18)%Z /\
  (@IsingMetropolis.update modulo_distributions default_model
     lattice_4x4_defect w).1 = lattice_4x4_up.
Proof. vm_compute. repeat split; reflexivity. Qed.

(** C3 on the all-up lattice: the same mutation raises the energy from -18
    to -10; the acceptance draw is 3093770124 / 2^32, above exp(-80), so
    the trial is rejected and the update returns the state it was given. *)
Lemma C3_metropolis_update_witness :
  let w := (IsingModel.setSeed 1 (statics_seeded 0)).2 in
  (@IsingMetropolis.update modulo_distributions default_model
     lattice_4x4_up w).1 = lattice_4x4_up.
Proof.
  intros w.
  set (action := @IsingModel.randomAction modulo_distributions).
  assert ((action default_model lattice_4x4_up w).1 = lattice_4x4_defect)
    as Htrial by (vm_compute; reflexivity).
  assert ((mt19937.next
             (Statics.get Statics.IsingModel_mt
                (action default_model lattice_4x4_up w).2)).1 =
          3093770124%Z) as Hdraw by (vm_compute; reflexivity).
  destruct (C3_metropolis_update IsingModel.t State.t Z Z.ltb
              IsingModel.energy action
              (@IsingMetropolis.fRandAccept modulo_distributions)
              default_model lattice_4x4_up w) as (_ & _ & Hreject).
  unfold IsingMetropolis.update. fold action. rewrite Hreject.
  - reflexivity.
  - rewrite Htrial. vm_compute. reflexivity.
  - rewrite Htrial.
    replace (IsingModel.energy default_model lattice_4x4_up) with (-18)%Z
      by (vm_compute; reflexivity).
    replace (IsingModel.energy default_model lattice_4x4_defect) with (-10)%Z
      by (vm_compute; reflexivity).
    unfold IsingMetropolis.fRandAccept, IsingModel.randomAccept, bind, draw,
      ret. cbn [uniform_real_distribution modulo_distributions].
    destruct (mt19937.next _) as [y g]. cbn [fst snd] in Hdraw |- *.
    subst y. unfold Rltb. destruct (Rlt_dec _ _) as [Hlt|_]; [|reflexivity].
    exfalso. revert Hlt. unfold IsingModel.kbT. cbn [IsingModel.kb
      IsingModel.T IsingModel.param default_model].
    replace (- (IZR (-10) - IZR (-18)) / (1.0 * 0.1))%R with (Ropp 80)
      by (field_simplify; lra).
    rewrite exp_Ropp. pose proof (exp_ineq1 80 ltac:(lra)) as H80.
    assert (/ exp 80 < / 81)%R as Hinv.
    { apply Rinv_lt_contravar; [apply Rmult_lt_0_compat; lra | lra]. }
    lra.
Defined.

(* ===================================================================== *)
(** * Reads after writes *)
(* ===================================================================== *)

Lemma well_formed_assign (state : State.t) (row col : nat) (value : bool) :
  well_formed state -> well_formed (State.assign state row col value).
Proof.
  intros [Hlen Hrows]. split; simpl.
  - rewrite length_insert. exact Hlen.
  - destruct (decide (row < length (State._elements state))) as [Hlt|Hge].
    + apply Forall_insert; [exact Hrows|]. rewrite length_insert.
      apply (Forall_lookup_total_1 _ _ _ Hrows Hlt).
    + rewrite list_insert_ge by lia. exact Hrows.
Qed.

Lemma at_assign (state : State.t) (row col : nat) (value : bool) (r c : nat) :
  well_formed state -> row < State.rows state -> col < State.cols state ->
  State.at_ (State.assign state row col value) r c =
  if (r =? row) && (c =? col) then value else State.at_ state r c.
Proof.
  intros [Hlen Hrows] Hrow Hcol. unfold State.at_, State.assign. simpl.
  rewrite list_lookup_total_insert.
  destruct (Nat.eqb_spec r row) as [->|Hr]; simpl.
  - rewrite decide_True by lia. rewrite list_lookup_total_insert.
    assert (length (State._elements state !!! row) = State.cols state) as Hc.
    { apply (Forall_lookup_total_1 _ _ _ Hrows). lia. }
    destruct (Nat.eqb_spec c col) as [->|Hc'].
    + rewrite decide_True by lia. reflexivity.
    + rewrite decide_False by lia. reflexivity.
  - rewrite decide_False by lia. reflexivity.
Qed.

Lemma rows_assign (state : State.t) (row col : nat) (value : bool) :
  State.rows (State.assign state row col value) = State.rows state.
Proof. reflexivity. Qed.

Lemma cols_assign (state : State.t) (row col : nat) (value : bool) :
  State.cols (State.assign state row col value) = State.cols state.
Proof. reflexivity. Qed.

Lemma update_at_cells (state : State.t) (row col : nat) (value : bool)
    (r c : nat) :
  well_formed state -> row < State.rows state -> col < State.cols state ->
  State.at_ (IsingHeatBathMethod.update_at state row col value) r c =
  if site_in (r, c)
       (written_cells (State.rows state) (State.cols state) row col)
  then value else State.at_ state r c.
Proof.
  intros Hwf Hrow Hcol.
  unfold IsingHeatBathMethod.update_at, written_cells, site_in.
  cbv zeta. rewrite !rows_assign.
  destruct (Nat.eqb_spec row 0) as [Hr0|Hr0];
    [|destruct (Nat.eqb_spec row (State.rows state - 1)) as [HrN|HrN]];
    rewrite ?cols_assign;
    (destruct (Nat.eqb_spec col 0) as [Hc0|Hc0];
     [|destruct (Nat.eqb_spec col (State.cols state - 1)) as [HcM|HcM]]);
    repeat (rewrite at_assign;
            [|repeat apply well_formed_assign; assumption
             |rewrite ?rows_assign; lia
             |rewrite ?cols_assign; lia]);
    cbn [existsb app fst snd];
    repeat match goal with
           | |- context [Nat.eqb ?a ?b] => destruct (Nat.eqb_spec a b)
           end; cbn [andb orb]; try reflexivity; lia.
Qed.

Lemma randomAction_at_update_at (state : State.t) (row col : nat) :
  IsingModel.randomAction_at state row col =
  IsingHeatBathMethod.update_at state row col
    (negb (State.at_ state row col)).
Proof. reflexivity. Qed.

(* ===================================================================== *)
(** * Truth values of comparisons, and the statics *)
(* ===================================================================== *)


Lemma Statics_get_set (s : Statics.stream) (g : mt19937.engine)
    (w : Statics.t) :
  Statics.get s (Statics.set s g w) = g.
Proof. destruct s as [| |[]]; reflexivity. Qed.

Lemma Statics_get_set_other (s s' : Statics.stream) (g : mt19937.engine)
    (w : Statics.t) :
  s <> s' -> Statics.get s' (Statics.set s g w) = Statics.get s' w.
Proof.
  intros Hne. destruct s as [| |[]]; destruct s' as [| |[]];
    try reflexivity; contradiction.
Qed.

Lemma Statics_set_set (s : Statics.stream) (g g' : mt19937.engine)
    (w : Statics.t) :
  Statics.set s g' (Statics.set s g w) = Statics.set s g' w.
Proof. destruct s as [| |[]]; reflexivity. Qed.

Lemma Rltb_false (a b : R) : Rltb a b = false <-> (b <= a)%R.
Proof.
  unfold Rltb. destruct (Rlt_dec a b) as [Hlt|Hge]; split; intros Hab;
    first [reflexivity | discriminate | lra].
Qed.




(* ===================================================================== *)
(** * The arithmetic of [Double] *)
(* ===================================================================== *)





Lemma of_R_cases (r : R) :
  (r = 0%R /\ Double.of_R r = Double.zero false) \/
  (r <> 0%R /\ Double.of_R r = Double.finite r) \/
  (r <> 0%R /\ Double.of_R r = Double.infinity (Rltb r 0)).
Proof.
  unfold Double.of_R. destruct (Req_dec_T r 0) as [He|Hne];
    [left; split; [exact He | reflexivity]|].
  right. destruct (Rltb (Rabs r) Double.overflow);
    [left | right]; split; first [exact Hne | reflexivity].
Qed.

Lemma signbit_of_R (r : R) :
  Double.signbit (Double.of_R r) = Rltb r 0.
Proof.
  destruct (of_R_cases r) as [[-> ->] | [[_ ->] | [_ ->]]];
    [|reflexivity|reflexivity].
  symmetry. apply Rltb_false. lra.
Qed.











(* ===================================================================== *)
(** * C4: one heat-bath update *)
(* ===================================================================== *)

Section HeatBathUpdate.
Context {D : Distributions}.

End HeatBathUpdate.




(* ===================================================================== *)
(** * C5 and C10: the neighbours of a site *)
(* ===================================================================== *)

Lemma neighborSpin_folded (L : LatticeType) (state : State.t)
    (row col : nat) :
  2 < State.rows state -> 2 < State.cols state ->
  IsingHeatBathMethod.neighborSpin L state row col =
    Zsum (map (fun d : offset * offset =>
                 spinAt state (folded (State.rows state) row d.1,
                               folded (State.cols state) col d.2))
              (neighbours L row)).
Proof.
  intros HN HM.
  assert ((2 <? State.rows state) && (2 <? State.cols state) = true) as Hbig.
  { apply andb_true_intro. split; apply Nat.ltb_lt; assumption. }
  destruct L; unfold IsingHeatBathMethod.neighborSpin, neighbours;
    [unfold IsingHeatBathMethod.neighborSpin_Square
    |unfold IsingHeatBathMethod.neighborSpin_Triangle
    |unfold IsingHeatBathMethod.neighborSpin_Rhombus
    |unfold IsingHeatBathMethod.neighborSpin_Hexagonal];
    cbv zeta; rewrite Hbig; unfold spinAt;
    repeat match goal with
           | |- context [if ?a mod ?b =? ?c then _ else _] =>
               destruct (a mod b =? c)
           end; cbn [map Zsum foldr fst snd folded]; lia.
Qed.

Lemma folded_edges (size : nat) :
  2 < size ->
  folded size 0 Prev = size - 2 /\
  folded size 0 Prev <> size - 1 /\
  folded size (size - 1) Next = 1 /\
  (forall d : offset, folded size 0 d <> size - 1) /\
  (forall d : offset, folded size (size - 1) d <> 0).
Proof.
  intros Hsize. cbn [folded]. rewrite !Nat.eqb_refl.
  split; [reflexivity|]. split; [lia|]. split; [reflexivity|].
  split; intros [| |]; cbn [folded]; rewrite ?Nat.eqb_refl;
    repeat match goal with
           | |- context [Nat.eqb ?a ?b] => destruct (Nat.eqb_spec a b)
           end; lia.
Qed.

(** A write to a row, or to a column, that no folded position of the site
    falls on leaves the neighbour sum of the site as it was. *)
Lemma neighborSpin_assign_elsewhere (L : LatticeType) (state : State.t)
    (row col r c : nat) (value : bool) :
  well_formed state ->
  2 < State.rows state -> 2 < State.cols state ->
  r < State.rows state -> c < State.cols state ->
  (forall d : offset, folded (State.rows state) row d <> r) \/
  (forall d : offset, folded (State.cols state) col d <> c) ->
  IsingHeatBathMethod.neighborSpin L (State.assign state r c value) row col =
  IsingHeatBathMethod.neighborSpin L state row col.
Proof.
  intros Hwf HN HM Hr Hc Hfar.
  rewrite !neighborSpin_folded by (rewrite ?rows_assign, ?cols_assign; lia).
  rewrite rows_assign, cols_assign.
  apply Zsum_map_ext. intros [dr dc]. unfold spinAt. cbn [fst snd].
  rewrite at_assign by assumption.
  destruct (Nat.eqb_spec (folded (State.rows state) row dr) r) as [Hrow|_];
    [|reflexivity].
  destruct (Nat.eqb_spec (folded (State.cols state) col dc) c) as [Hcol|_];
    [|reflexivity].
  destruct Hfar as [Hfar|Hfar]; [destruct (Hfar dr Hrow) | destruct (Hfar dc Hcol)].
Qed.

(** C5: on a lattice with N > 2 and M > 2, the neighbour sum of each of the
    four topologies is the sum of the spins at the folded positions of its
    neighbour set, where the position before row (column) 0 is size-2, not
    size-1, the position after the last row (column) is 1, and every other
    position is one less or one more. Hence the sum at a site of row 0
    reads no cell of the last row, the sum at a site of the last row reads
    no cell of row 0, and likewise for the columns. *)
Theorem C5_neighborSpin_fold (L : LatticeType) (state : State.t)
    (row col : nat) :
  let N := State.rows state in
  let M := State.cols state in
  2 < N -> 2 < M ->
  IsingHeatBathMethod.neighborSpin L state row col =
    Zsum (map (fun d : offset * offset =>
                 spinAt state (folded N row d.1, folded M col d.2))
              (neighbours L row)) /\
  (folded N 0 Prev = N - 2 /\ folded N 0 Prev <> N - 1 /\
   folded N (N - 1) Next = 1) /\
  (folded M 0 Prev = M - 2 /\ folded M 0 Prev <> M - 1 /\
   folded M (M - 1) Next = 1) /\
  (forall size i : nat, 0 < i -> folded size i Prev = i - 1) /\
  (forall size i : nat, i <> size - 1 -> folded size i Next = i + 1) /\
  (well_formed state ->
   forall (r c : nat) (value : bool),
     r < N -> c < M ->
     let written := State.assign state r c value in
     (r = N - 1 ->
      IsingHeatBathMethod.neighborSpin L written 0 col =
      IsingHeatBathMethod.neighborSpin L state 0 col) /\
     (r = 0 ->
      IsingHeatBathMethod.neighborSpin L written (N - 1) col =
      IsingHeatBathMethod.neighborSpin L state (N - 1) col) /\
     (c = M - 1 ->
      IsingHeatBathMethod.neighborSpin L written row 0 =
      IsingHeatBathMethod.neighborSpin L state row 0) /\
     (c = 0 ->
      IsingHeatBathMethod.neighborSpin L written row (M - 1) =
      IsingHeatBathMethod.neighborSpin L state row (M - 1))).
Proof.
  intros N M HN HM.
  destruct (folded_edges N HN) as (HN1 & HN2 & HN3 & HN4 & HN5).
  destruct (folded_edges M HM) as (HM1 & HM2 & HM3 & HM4 & HM5).
  split; [apply neighborSpin_folded; assumption|].
  split; [repeat split; assumption|].
  split; [repeat split; assumption|].
  split.
  { intros size i Hi. simpl. destruct (Nat.eqb_spec i 0); [lia|reflexivity]. }
  split.
  { intros size i Hi. simpl.
    destruct (Nat.eqb_spec i (size - 1)); [contradiction|reflexivity]. }
  intros Hwf r c value Hr Hc written. subst written.
  split; [|split; [|split]]; intros ->;
    apply neighborSpin_assign_elsewhere; try assumption;
    first [left; assumption | right; assumption].
Qed.

(** C5 on the striped lattice: above row 0 the Square sum reads row 2,
    which is down, not row 3, which is up. *)
Lemma C5_neighborSpin_fold_witness :
  IsingHeatBathMethod.neighborSpin Square lattice_4x4_stripe 0 1 =
    Zsum (map (fun d : offset * offset =>
                 spinAt lattice_4x4_stripe (folded 4 0 d.1, folded 4 1 d.2))
              (neighbours Square 0)) /\
  IsingHeatBathMethod.neighborSpin Square lattice_4x4_stripe 0 1 = 2%Z.
Proof.
  split.
  - apply (C5_neighborSpin_fold Square lattice_4x4_stripe 0 1); simpl; lia.
  - reflexivity.
Defined.

(** C10: on a lattice with N <= 2 or M <= 2 the four topologies compute
    the same neighbour sum at every site: the two vertical folded
    neighbours when N > 2, plus the two horizontal folded neighbours when
    M > 2, and 0 when neither holds. *)
Theorem C10_neighborSpin_degenerate (L : LatticeType) (state : State.t)
    (row col : nat) :
  let N := State.rows state in
  let M := State.cols state in
  N <= 2 \/ M <= 2 ->
  IsingHeatBathMethod.neighborSpin L state row col =
    ((if (2 <? N)%nat
      then spinAt state (folded N row Prev, col) +
           spinAt state (folded N row Next, col)
      else 0) +
     (if (2 <? M)%nat
      then spinAt state (row, folded M col Prev) +
           spinAt state (row, folded M col Next)
      else 0))%Z /\
  (forall L' : LatticeType,
     IsingHeatBathMethod.neighborSpin L' state row col =
     IsingHeatBathMethod.neighborSpin L state row col) /\
  (N <= 2 -> M <= 2 ->
   IsingHeatBathMethod.neighborSpin L state row col = 0%Z).
Proof.
  intros N M Hdeg.
  assert ((2 <? N) && (2 <? M) = false) as Hsmall.
  { apply andb_false_iff. destruct Hdeg; [left | right]; apply Nat.ltb_ge; lia. }
  assert (forall K : LatticeType,
    IsingHeatBathMethod.neighborSpin K state row col =
    ((if (2 <? N)%nat
      then spinAt state (folded N row Prev, col) +
           spinAt state (folded N row Next, col)
      else 0) +
     (if (2 <? M)%nat
      then spinAt state (row, folded M col Prev) +
           spinAt state (row, folded M col Next)
      else 0))%Z) as Hall.
  { intros K. destruct K; unfold IsingHeatBathMethod.neighborSpin;
      [unfold IsingHeatBathMethod.neighborSpin_Square
      |unfold IsingHeatBathMethod.neighborSpin_Triangle
      |unfold IsingHeatBathMethod.neighborSpin_Rhombus
      |unfold IsingHeatBathMethod.neighborSpin_Hexagonal];
      fold N M; cbv zeta; rewrite Hsmall; unfold spinAt;
      destruct (2 <? N); destruct (2 <? M); cbn [fst snd folded]; lia. }
  split; [apply Hall|]. split.
  - intros L'. rewrite !Hall. reflexivity.
  - intros HN HM. rewrite Hall.
    replace (2 <? N)%nat with false by (symmetry; apply Nat.ltb_ge; lia).
    replace (2 <? M)%nat with false by (symmetry; apply Nat.ltb_ge; lia).
    reflexivity.
Qed.

(** C10 on a 2×5 lattice: only the two horizontal neighbours count. *)
Lemma C10_neighborSpin_degenerate_witness :
  IsingHeatBathMethod.neighborSpin Hexagonal lattice_2x5 1 4 =
    (0 + (spinAt lattice_2x5 (1%nat, 3%nat) +
          spinAt lattice_2x5 (1%nat, 1%nat)))%Z /\
  (forall L' : LatticeType,
     IsingHeatBathMethod.neighborSpin L' lattice_2x5 1 4 =
     IsingHeatBathMethod.neighborSpin Hexagonal lattice_2x5 1 4).
Proof.
  assert (State.rows lattice_2x5 <= 2 \/ State.cols lattice_2x5 <= 2) as Hdeg.
  { left. simpl. lia. }
  destruct (C10_neighborSpin_degenerate Hexagonal lattice_2x5 1 4 Hdeg)
    as (Hsum & Hsame & _).
  split; [exact Hsum | exact Hsame].
Defined.

(* ===================================================================== *)
(** * C7: the heat-bath probability *)
(* ===================================================================== *)




(* ===================================================================== *)
(** * C9: lattices without sites *)
(* ===================================================================== *)

Lemma loop_invariant {A : Type} (P : A -> Prop) (n : nat)
    (body : nat -> A -> A) (a : A) :
  P a -> (forall i x, P x -> P (body i x)) -> P (loop n body a).
Proof.
  intros Ha Hbody. unfold loop. generalize (seq 0 n) as l. intros l.
  revert a Ha. induction l as [|i l IH]; intros a Ha; simpl; [exact Ha|].
  apply IH, Hbody, Ha.
Qed.

Lemma init_dims (state : State.t) (value : bool) :
  State.rows (State.init state value) = State.rows state /\
  State.cols (State.init state value) = State.cols state.
Proof.
  unfold State.init.
  apply (loop_invariant (fun st =>
           State.rows st = State.rows state /\
           State.cols st = State.cols state)); [split; reflexivity|].
  intros n st Hst. apply loop_invariant; [exact Hst|].
  intros m st' Hst'. exact Hst'.
Qed.

Lemma update_at_dims (state : State.t) (row col : nat) (value : bool) :
  State.rows (IsingHeatBathMethod.update_at state row col value) =
    State.rows state /\
  State.cols (IsingHeatBathMethod.update_at state row col value) =
    State.cols state.
Proof.
  unfold IsingHeatBathMethod.update_at. cbv zeta.
  repeat match goal with
         | |- context [if ?b then _ else _] => destruct b
         end; split; reflexivity.
Qed.

Lemma averageSpin_defined (state : State.t) :
  State.rows state <> 0 -> State.cols state <> 0 ->
  (Z.of_nat (State.rows state) * Z.of_nat (State.cols state) < 2 ^ 64)%Z ->
  IsingModel.spinCount state <> 0%Z /\
  IsingModel.averageSpin state =
    inr (inject_Z (IsingModel.magnetization state) /
         inject_Z (IsingModel.spinCount state))%Q.
Proof.
  intros HN HM Hfit.
  assert (IsingModel.spinCount state <> 0%Z) as Hcount.
  { unfold IsingModel.spinCount. rewrite Nat2Z.inj_mul.
    rewrite Z.mod_small by nia. nia. }
  split; [exact Hcount|]. unfold IsingModel.averageSpin.
  destruct (Z.eqb_spec (IsingModel.spinCount state) 0) as [Heq|_];
    [contradiction|reflexivity].
Qed.

(** C9: a lattice state with rows = 0 or cols = 0 is not constructed: the
    construction fails with the invalid-size error (the [InvalidDimension]
    of the design document). A constructed state has the dimensions asked
    for, both positive, so the number of spins [averageSpin] divides by is
    not zero and its static assertion never fires. *)
Theorem C9_zero_dimension_rejected (N M : nat) (value : bool) :
  ((N = 0 \/ M = 0) -> State.create N M value = inl State.invalid_size) /\
  (forall state : State.t,
     State.create N M value = inr state ->
     State.rows state = N /\ State.cols state = M /\ N <> 0 /\ M <> 0 /\
     ((Z.of_nat N * Z.of_nat M < 2 ^ 64)%Z ->
      IsingModel.spinCount state <> 0%Z /\
      IsingModel.averageSpin state =
        inr (inject_Z (IsingModel.magnetization state) /
             inject_Z (IsingModel.spinCount state))%Q)).
Proof.
  unfold State.create. split.
  - intros [-> | ->]; [reflexivity|]. rewrite andb_false_r. reflexivity.
  - intros state Hcreate.
    destruct (Nat.eqb_spec N 0) as [HN|HN]; [discriminate|].
    destruct (Nat.eqb_spec M 0) as [HM|HM]; [discriminate|].
    simpl in Hcreate. injection Hcreate as <-.
    destruct (init_dims (State.storage N M) value) as [Hrows Hcols].
    simpl in Hrows, Hcols.
    split; [exact Hrows|]. split; [exact Hcols|].
    split; [exact HN|]. split; [exact HM|].
    intros Hfit. apply averageSpin_defined; rewrite ?Hrows, ?Hcols; assumption.
Qed.

Example create_0x3 : State.create 0 3 true = inl State.invalid_size.
Proof. reflexivity. Qed.

Example create_3x0 : State.create 3 0 true = inl State.invalid_size.
Proof. reflexivity. Qed.

Example averageSpin_4x4_up :
  IsingModel.averageSpin lattice_4x4_up = inr (16 # 16)%Q.
Proof. reflexivity. Qed.

(* ===================================================================== *)
(** * C6 and C8: the random streams *)
(* ===================================================================== *)

Lemma draws_from_ret {A : Type} (s : Statics.stream) (a : A) :
  draws_from s (ret a).
Proof. split; [intros w w' Hw; split; [reflexivity | exact Hw] | reflexivity]. Qed.

Lemma draws_from_draw {A : Type} (s : Statics.stream)
    (d : mt19937.engine -> A * mt19937.engine) :
  draws_from s (draw s d).
Proof.
  unfold draw. split.
  - intros w w' Hw. rewrite Hw.
    destruct (d (Statics.get s w')) as [a g]. simpl.
    rewrite !Statics_get_set. split; reflexivity.
  - intros w s' Hne. destruct (d (Statics.get s w)) as [a g]. simpl.
    apply Statics_get_set_other, Hne.
Qed.

Lemma draws_from_seed_stream (s : Statics.stream) (seed : Z) :
  draws_from s (seed_stream s seed).
Proof.
  unfold seed_stream. split; simpl.
  - intros w w' _. rewrite !Statics_get_set. split; reflexivity.
  - intros w s' Hne. apply Statics_get_set_other, Hne.
Qed.

Lemma draws_from_bind {A B : Type} (s : Statics.stream) (m : Run A)
    (k : A -> Run B) :
  draws_from s m -> (forall a, draws_from s (k a)) ->
  draws_from s (bind m k).
Proof.
  intros [Hm Hm'] Hk. unfold bind. split.
  - intros w w' Hw. destruct (Hm w w' Hw) as [Ha Hg].
    destruct (m w) as [a w1]. destruct (m w') as [a' w1']. simpl in Ha, Hg.
    subst a'. apply (Hk a), Hg.
  - intros w s' Hne. specialize (Hm' w s' Hne).
    destruct (m w) as [a w1]. simpl in Hm'.
    rewrite <- Hm'. apply (Hk a), Hne.
Qed.

Lemma draws_from_iterM {A : Type} (s : Statics.stream) (l : list nat)
    (body : nat -> A -> Run A) (a : A) :
  (forall i x, draws_from s (body i x)) -> draws_from s (iterM l body a).
Proof.
  intros Hbody. revert a. induction l as [|i l IH]; intros a; simpl.
  - apply draws_from_ret.
  - apply draws_from_bind; [apply Hbody | exact IH].
Qed.

Lemma draws_from_trajectory (s : Statics.stream)
    (update : State.t -> Run State.t) (K : nat) (state : State.t) :
  (forall st, draws_from s (update st)) ->
  draws_from s (trajectory update K state).
Proof.
  intros Hupdate. revert state. induction K as [|K IH]; intros state; simpl.
  - apply draws_from_ret.
  - apply draws_from_bind; [apply Hupdate|]. intros state'.
    apply draws_from_bind; [apply IH|]. intros rest. apply draws_from_ret.
Qed.

(** Once its stream is seeded, what a method returns is a function of the
    seed: the statics it starts from no longer matter. *)
Lemma draws_from_seeded {A : Type} (s : Statics.stream) (m : Run A)
    (seed : Z) (w w' : Statics.t) :
  draws_from s m ->
  Statics.get s w = mt19937.seed seed ->
  Statics.get s w' = mt19937.seed seed ->
  (m w).1 = (m w').1.
Proof.
  intros [Hm _] Hw Hw'. apply Hm. rewrite Hw, Hw'. reflexivity.
Qed.

Section Streams.
Context {D : Distributions}.

Lemma initRand_draws (state : State.t) :
  draws_from Statics.State_mt (State.initRand state).
Proof.
  unfold State.initRand, loopM. apply draws_from_iterM. intros n st.
  apply draws_from_iterM. intros m st'.
  apply draws_from_bind; [apply draws_from_draw|].
  intros bit. apply draws_from_ret.
Qed.

Lemma randomAction_draws (self : IsingModel.t) (state : State.t) :
  draws_from Statics.IsingModel_mt (IsingModel.randomAction self state).
Proof.
  unfold IsingModel.randomAction.
  apply draws_from_bind; [apply draws_from_draw|]. intros row.
  apply draws_from_bind; [apply draws_from_draw|]. intros col.
  apply draws_from_ret.
Qed.

Lemma randomAccept_draws (self : IsingModel.t) (prev next : R) :
  draws_from Statics.IsingModel_mt (IsingModel.randomAccept self prev next).
Proof.
  unfold IsingModel.randomAccept.
  apply draws_from_bind; [apply draws_from_draw|]. intros u.
  apply draws_from_ret.
Qed.

Lemma metropolis_update_draws (self : IsingModel.t) (state : State.t) :
  draws_from Statics.IsingModel_mt (IsingMetropolis.update self state).
Proof.
  unfold IsingMetropolis.update, MetropolisMethod.update.
  apply draws_from_bind; [apply randomAction_draws|]. intros nextState.
  destruct (_ <? _)%Z; [apply draws_from_ret|].
  apply draws_from_bind; [apply randomAccept_draws|].
  intros [|]; apply draws_from_ret.
Qed.

Lemma metropolis_optimize_draws (K : nat) (self : IsingModel.t)
    (state : State.t) :
  draws_from Statics.IsingModel_mt (IsingMetropolis.optimize K self state).
Proof.
  unfold IsingMetropolis.optimize, MetropolisMethod.optimize, loopM.
  apply draws_from_iterM. intros _ st. apply metropolis_update_draws.
Qed.

Lemma heat_bath_update_draws (L : LatticeType)
    (self : IsingHeatBathMethod.t) (state : State.t) :
  draws_from (Statics.IsingHeatBathMethod_mt L)
    (IsingHeatBathMethod.update L self state).
Proof.
  unfold IsingHeatBathMethod.update. cbv zeta.
  apply draws_from_bind; [apply draws_from_draw|]. intros row.
  apply draws_from_bind; [apply draws_from_draw|]. intros col.
  apply draws_from_bind; [apply draws_from_draw|]. intros u.
  apply draws_from_ret.
Qed.

Lemma heat_bath_optimize_draws (L : LatticeType) (K : nat)
    (self : IsingHeatBathMethod.t) (state : State.t) :
  draws_from (Statics.IsingHeatBathMethod_mt L)
    (IsingHeatBathMethod.optimize L K self state).
Proof.
  unfold IsingHeatBathMethod.optimize, loopM.
  apply draws_from_iterM. intros _ st. apply heat_bath_update_draws.
Qed.
End Streams.

Lemma last_cons {A : Type} (a d : A) (l : list A) :
  List.last (a :: l) d = List.last l a.
Proof.
  revert a d. induction l as [|b l IH]; intros a d; [reflexivity|].
  change (List.last (a :: b :: l) d) with (List.last (b :: l) d).
  rewrite (IH b d), (IH b a). reflexivity.
Qed.

Lemma iterM_trajectory (update : State.t -> Run State.t) (l : list nat)
    (state : State.t) (w : Statics.t) :
  (iterM l (fun _ st => update st) state w).1 =
    List.last (trajectory update (length l) state w).1 state /\
  (iterM l (fun _ st => update st) state w).2 =
    (trajectory update (length l) state w).2.
Proof.
  revert state w. induction l as [|i l IH]; intros state w; simpl.
  - split; reflexivity.
  - unfold bind. destruct (update state w) as [state' w'].
    specialize (IH state' w').
    destruct (trajectory update (length l) state' w') as [rest w''].
    unfold ret. cbn [fst snd] in *. rewrite last_cons. exact IH.
Qed.

Lemma trajectory_length (update : State.t -> Run State.t) (K : nat)
    (state : State.t) (w : Statics.t) :
  length (trajectory update K state w).1 = K.
Proof.
  revert state w. induction K as [|K IH]; intros state w; simpl;
    [reflexivity|].
  unfold bind. destruct (update state w) as [state' w'].
  specialize (IH state' w').
  destruct (trajectory update K state' w') as [rest w'']. simpl in *.
  rewrite IH. reflexivity.
Qed.

(** C6, as the design document states it, fails. With the model stream
    seeded to 1, the mutation on the all-up 4×4 lattice through one model
    object flips site (1, 3); when a second model object has drawn a
    mutation first, the same call through the first object flips the
    corner (0, 0): both objects draw from the one generator of their
    class. Likewise the seed 2 set through any model object replaces the
    seed 1 set before through another. *)
Lemma C6_streams_per_instance_counterexample :
  let w := (IsingModel.setSeed 1 (statics_seeded 0)).2 in
  let first := @IsingModel.randomAction modulo_distributions default_model in
  let second := @IsingModel.randomAction modulo_distributions second_model in
  State._elements (first lattice_4x4_up w).1 =
    [[true; true; true; true];
     [false; true; true; false];
     [true; true; true; true];
     [true; true; true; true]] /\
  State._elements (first lattice_4x4_up (second lattice_4x4_up w).2).1 =
    [[false; true; true; false];
     [true; true; true; true];
     [true; true; true; true];
     [false; true; true; true]] /\
  (first lattice_4x4_up w).1 <>
    (first lattice_4x4_up (second lattice_4x4_up w).2).1 /\
  mt19937.outputs 3 (Statics.get Statics.IsingModel_mt w) =
    [1791095845; 4282876139; 3093770124]%Z /\
  mt19937.outputs 3
    (Statics.get Statics.IsingModel_mt (IsingModel.setSeed 2 w).2) <>
  mt19937.outputs 3 (Statics.get Statics.IsingModel_mt w).
Proof.
  vm_compute. repeat split; congruence.
Qed.

Section StreamsPerClass.
Context {D : Distributions}.

(** C6, amended: the pseudorandom streams are one per class, not one per
    object: one for the lattice states, one for the models (the
    Metropolis sampler draws from it and has none of its own) and one
    for the heat-bath samplers of each topology. [setSeed] of a class
    sets the whole generator of that class from the seed and touches no
    other; every drawing method reads and advances the generator of its
    class alone, whichever object it is called on; so, once a class
    stream is reseeded to a given value, what its methods return is the
    same whatever the state of every stream was before, and two objects
    of one class are interchangeable as far as the draws go. *)
Theorem C6_streams_per_class :
  (forall (s : Statics.stream) (seed : Z) (w : Statics.t),
     Statics.get s (seed_stream s seed w).2 = mt19937.seed seed /\
     forall s' : Statics.stream,
       s <> s' ->
       Statics.get s' (seed_stream s seed w).2 = Statics.get s' w) /\
  (forall state, draws_from Statics.State_mt (State.initRand state)) /\
  (forall self state,
     draws_from Statics.IsingModel_mt (IsingModel.randomAction self state)) /\
  (forall self prev next,
     draws_from Statics.IsingModel_mt
       (IsingModel.randomAccept self prev next)) /\
  (forall K self state,
     draws_from Statics.IsingModel_mt
       (IsingMetropolis.optimize K self state)) /\
  (forall L K self state,
     draws_from (Statics.IsingHeatBathMethod_mt L)
       (IsingHeatBathMethod.optimize L K self state)) /\
  (forall (A : Type) (s : Statics.stream) (m : Run A) (seed : Z)
          (w w' : Statics.t),
     draws_from s m ->
     (m (seed_stream s seed w).2).1 = (m (seed_stream s seed w').2).1) /\
  (forall (a b : IsingModel.t) (state state' : State.t) (w : Statics.t),
     IsingModel.randomAction b state' (IsingModel.randomAction a state w).2 =
     IsingModel.randomAction a state' (IsingModel.randomAction b state w).2).
Proof.
  split.
  { intros s seed w. unfold seed_stream. simpl. split.
    - apply Statics_get_set.
    - intros s' Hne. apply Statics_get_set_other, Hne. }
  split; [exact initRand_draws|].
  split; [exact randomAction_draws|].
  split; [exact randomAccept_draws|].
  split; [exact metropolis_optimize_draws|].
  split; [exact heat_bath_optimize_draws|].
  split.
  { intros A s m seed w w' Hm.
    apply (draws_from_seeded s m seed); [exact Hm| |];
      unfold seed_stream; simpl; apply Statics_get_set. }
  intros a b state state' w. reflexivity.
Qed.

Lemma seed_all_streams (L : LatticeType) (seed : Z) (w : Statics.t) :
  Statics.get Statics.IsingModel_mt (seed_all L seed w).2 =
    mt19937.seed seed /\
  Statics.get (Statics.IsingHeatBathMethod_mt L) (seed_all L seed w).2 =
    mt19937.seed seed /\
  Statics.get Statics.State_mt (seed_all L seed w).2 = mt19937.seed seed.
Proof. destruct L; repeat split; reflexivity. Qed.

(** C8: with the state, model and sampler streams seeded to one value,
    two runs of [optimize] over K steps from one initial lattice, begun
    from any two states of the generators, pass through the same lattice
    after every step and end in the same lattice; this holds for the
    Metropolis sampler and for the heat-bath sampler of each topology.
    The lattice [optimize] returns is the last one of the trajectory. *)
Theorem C8_fixed_seed_determinism (L : LatticeType) (seed : Z) (K : nat)
    (model : IsingModel.t) (sampler : IsingHeatBathMethod.t)
    (state : State.t) (w1 w2 : Statics.t) :
  let s1 := (seed_all L seed w1).2 in
  let s2 := (seed_all L seed w2).2 in
  let metropolis := trajectory (IsingMetropolis.update model) K state in
  let heatbath := trajectory (IsingHeatBathMethod.update L sampler) K state in
  (metropolis s1).1 = (metropolis s2).1 /\
  (IsingMetropolis.optimize K model state s1).1 =
    (IsingMetropolis.optimize K model state s2).1 /\
  (heatbath s1).1 = (heatbath s2).1 /\
  (IsingHeatBathMethod.optimize L K sampler state s1).1 =
    (IsingHeatBathMethod.optimize L K sampler state s2).1 /\
  length (metropolis s1).1 = K /\
  length (heatbath s1).1 = K /\
  (IsingMetropolis.optimize K model state s1).1 =
    List.last (metropolis s1).1 state /\
  (IsingHeatBathMethod.optimize L K sampler state s1).1 =
    List.last (heatbath s1).1 state.
Proof.
  intros s1 s2 metropolis heatbath.
  destruct (seed_all_streams L seed w1) as (Hm1 & Hh1 & _).
  destruct (seed_all_streams L seed w2) as (Hm2 & Hh2 & _).
  fold s1 in Hm1, Hh1. fold s2 in Hm2, Hh2.
  split.
  { apply (draws_from_seeded Statics.IsingModel_mt _ seed); try assumption.
    apply draws_from_trajectory. intros st. apply metropolis_update_draws. }
  split.
  { apply (draws_from_seeded Statics.IsingModel_mt _ seed); try assumption.
    apply metropolis_optimize_draws. }
  split.
  { apply (draws_from_seeded (Statics.IsingHeatBathMethod_mt L) _ seed);
      try assumption.
    apply draws_from_trajectory. intros st. apply heat_bath_update_draws. }
  split.
  { apply (draws_from_seeded (Statics.IsingHeatBathMethod_mt L) _ seed);
      try assumption.
    apply heat_bath_optimize_draws. }
  split; [apply trajectory_length|]. split; [apply trajectory_length|].
  split.
  - unfold IsingMetropolis.optimize, MetropolisMethod.optimize, loopM.
    subst metropolis.
    destruct (iterM_trajectory (IsingMetropolis.update model)
                (seq 0 K) state s1) as [Hlast _].
    rewrite length_seq in Hlast. exact Hlast.
  - unfold IsingHeatBathMethod.optimize, loopM. subst heatbath.
    destruct (iterM_trajectory (IsingHeatBathMethod.update L sampler)
                (seq 0 K) state s1) as [Hlast _].
    rewrite length_seq in Hlast. exact Hlast.
Qed.
End StreamsPerClass.

(* ===================================================================== *)
(** * Further properties of the lattice container *)
(* ===================================================================== *)

Lemma state_ext (state state' : State.t) :
  well_formed state -> well_formed state' -> agree state state' ->
  state = state'.
Proof.
  destruct state as [N M rows], state' as [N' M' rows'].
  intros [Hlen Hrows] [Hlen' Hrows'] (HN & HM & Hcells). simpl in *.
  destruct HN, HM. f_equal.
  apply (list_eq_same_length _ _ N); [assumption | assumption |].
  intros r row row' Hr Hrow Hrow'.
  pose proof (Forall_lookup_1 _ _ _ _ Hrows Hrow) as Hl.
  pose proof (Forall_lookup_1 _ _ _ _ Hrows' Hrow') as Hl'.
  simpl in Hl, Hl'.
  apply (list_eq_same_length _ _ M); [assumption | assumption |].
  intros c x x' Hc Hx Hx'.
  specialize (Hcells r c Hr Hc). unfold State.at_ in Hcells. simpl in Hcells.
  rewrite (list_lookup_total_correct _ _ _ Hrow) in Hcells.
  rewrite (list_lookup_total_correct _ _ _ Hrow') in Hcells.
  rewrite (list_lookup_total_correct _ _ _ Hx) in Hcells.
  rewrite (list_lookup_total_correct _ _ _ Hx') in Hcells.
  exact Hcells.
Qed.

Lemma loop_ind {A : Type} (P : nat -> A -> Prop) (n : nat)
    (body : nat -> A -> A) (a : A) :
  P 0 a ->
  (forall i x, i < n -> P i x -> P (S i) (body i x)) ->
  P n (loop n body a).
Proof.
  intros Ha Hbody. unfold loop.
  assert (forall len start x,
            start + len = n -> P start x ->
            P n (fold_left (fun acc i => body i acc) (seq start len) x))
    as Hgen.
  { induction len as [|len IH]; intros start x Hsum Hx; simpl.
    - replace n with start by lia. exact Hx.
    - apply IH; [lia|]. apply Hbody; [lia | exact Hx]. }
  apply Hgen; [lia | exact Ha].
Qed.

Lemma well_formed_storage (N M : nat) : well_formed (State.storage N M).
Proof.
  split; simpl; [apply length_replicate|].
  apply Forall_replicate. apply length_replicate.
Qed.

Lemma well_formed_uniform (N M : nat) (value : bool) :
  well_formed (uniform N M value).
Proof.
  split; simpl; [apply length_replicate|].
  apply Forall_replicate. apply length_replicate.
Qed.

Lemma at_uniform (N M : nat) (value : bool) (r c : nat) :
  r < N -> c < M -> State.at_ (uniform N M value) r c = value.
Proof.
  intros Hr Hc. unfold State.at_, uniform. simpl.
  rewrite !lookup_total_replicate_2 by assumption. reflexivity.
Qed.

(** Filling every cell by a function of its position: the shape shared by
    [init] and the copy constructor. *)
Lemma fill_cells (f : nat -> nat -> bool) (state : State.t) :
  well_formed state ->
  let filled :=
    loop (State.rows state) (fun n st =>
      loop (State.cols state) (fun m st => State.assign st n m (f n m)) st)
      state in
  well_formed filled /\
  State.rows filled = State.rows state /\
  State.cols filled = State.cols state /\
  forall r c : nat,
    r < State.rows state -> c < State.cols state ->
    State.at_ filled r c = f r c.
Proof.
  intros Hwf filled. subst filled.
  set (N := State.rows state). set (M := State.cols state).
  apply (loop_ind (fun n st =>
           well_formed st /\ State.rows st = N /\ State.cols st = M /\
           forall r c, r < n -> c < M -> State.at_ st r c = f r c)).
  - split; [exact Hwf|]. split; [reflexivity|]. split; [reflexivity|].
    intros r c Hr. lia.
  - intros n st Hn (Hwf' & HN & HM & Hdone).
    assert (let st' := loop M (fun m st0 => State.assign st0 n m (f n m)) st in
            well_formed st' /\ State.rows st' = N /\ State.cols st' = M /\
            (forall r c, r < n -> c < M -> State.at_ st' r c = f r c) /\
            (forall c, c < M -> State.at_ st' n c = f n c)) as Hrow.
    { apply (loop_ind (fun m st' =>
               well_formed st' /\ State.rows st' = N /\ State.cols st' = M /\
               (forall r c, r < n -> c < M -> State.at_ st' r c = f r c) /\
               (forall c, c < m -> State.at_ st' n c = f n c))).
      - split; [exact Hwf'|]. split; [exact HN|]. split; [exact HM|].
        split; [exact Hdone|]. intros c Hc. lia.
      - intros m st' Hm (Hwf'' & HN' & HM' & Hrows & Hcols).
        split; [apply well_formed_assign, Hwf''|].
        split; [exact HN'|]. split; [exact HM'|]. split.
        + intros r c Hr Hc. rewrite at_assign by (try assumption; lia).
          destruct (Nat.eqb_spec r n); [lia|]. simpl. apply Hrows; assumption.
        + intros c Hc. rewrite at_assign by (try assumption; lia).
          rewrite Nat.eqb_refl. simpl.
          destruct (Nat.eqb_spec c m) as [->|Hne]; [reflexivity|].
          apply Hcols. lia. }
    destruct Hrow as (Hwf2 & HN2 & HM2 & Hrows & Hcols).
    split; [exact Hwf2|]. split; [exact HN2|]. split; [exact HM2|].
    intros r c Hr Hc. destruct (decide (r = n)) as [->|Hne].
    + apply Hcols, Hc.
    + apply Hrows; [lia | exact Hc].
Qed.

Lemma init_uniform (state : State.t) (value : bool) :
  well_formed state ->
  State.init state value =
    uniform (State.rows state) (State.cols state) value.
Proof.
  intros Hwf.
  destruct (fill_cells (fun _ _ => value) state Hwf)
    as (Hwf' & HN & HM & Hcells).
  apply state_ext; [exact Hwf' | apply well_formed_uniform |].
  split; [exact HN|]. split; [exact HM|].
  intros r c Hr Hc. unfold State.init in *. rewrite HN in Hr. rewrite HM in Hc.
  rewrite Hcells, at_uniform by assumption. reflexivity.
Qed.

Lemma create_uniform (N M : nat) (value : bool) :
  N <> 0 -> M <> 0 -> State.create N M value = inr (uniform N M value).
Proof.
  intros HN HM. unfold State.create.
  destruct (Nat.eqb_spec N 0); [contradiction|].
  destruct (Nat.eqb_spec M 0); [contradiction|]. simpl.
  rewrite init_uniform by apply well_formed_storage. reflexivity.
Qed.

(** X1 ([State::init], [State(const T&)]): [init(value)] leaves a
    well-formed lattice as N rows of M cells all equal to [value],
    whatever it held before; the constructor [State(value)] builds that
    lattice for every N, M >= 1. *)
Theorem X1_init_fills (state : State.t) (value : bool) :
  well_formed state ->
  State.init state value =
    uniform (State.rows state) (State.cols state) value /\
  (forall N M : nat,
     N <> 0 -> M <> 0 -> State.create N M value = inr (uniform N M value)).
Proof.
  intros Hwf. split; [apply init_uniform, Hwf|].
  intros N M. apply create_uniform.
Qed.

(** X1 on the 2×5 lattice. *)
Lemma X1_init_fills_witness :
  State.init lattice_2x5 false = uniform 2 5 false.
Proof.
  assert (well_formed lattice_2x5) as Hwf.
  { split; [reflexivity|]. repeat constructor. }
  exact (proj1 (X1_init_fills lattice_2x5 false Hwf)).
Defined.

(** X2 (copy constructor, [operator=]): the element-wise copy of a
    well-formed lattice is that lattice. *)
Theorem X2_copy_equal (other : State.t) :
  well_formed other -> State.copy other = other.
Proof.
  intros Hwf. unfold State.copy.
  destruct (fill_cells (fun n m => State.at_ other n m)
              (State.storage (State.rows other) (State.cols other))
              (well_formed_storage _ _)) as (Hwf' & HN & HM & Hcells).
  simpl in HN, HM, Hcells.
  apply state_ext; [exact Hwf' | exact Hwf |].
  split; [exact HN|]. split; [exact HM|].
  intros r c Hr Hc. simpl in Hr, Hc. rewrite HN in Hr. rewrite HM in Hc.
  apply Hcells; assumption.
Qed.

(** X2 on the 2×5 lattice. *)
Lemma X2_copy_equal_witness : State.copy lattice_2x5 = lattice_2x5.
Proof.
  apply X2_copy_equal. split; [reflexivity|]. repeat constructor.
Defined.

Lemma loop_ext_lt {A : Type} (n : nat) (f g : nat -> A -> A) (a : A) :
  (forall i x, i < n -> f i x = g i x) -> loop n f a = loop n g a.
Proof.
  intros Hfg. unfold loop.
  assert (forall len start x,
            start + len <= n ->
            fold_left (fun acc i => f i acc) (seq start len) x =
            fold_left (fun acc i => g i acc) (seq start len) x) as Hgen.
  { induction len as [|len IH]; intros start x Hle; simpl; [reflexivity|].
    rewrite Hfg by lia. apply IH. lia. }
  apply Hgen. lia.
Qed.

Lemma Zsum_const {A : Type} (k : Z) (l : list A) :
  Zsum (map (fun _ => k) l) = (Z.of_nat (length l) * k)%Z.
Proof. induction l as [|x l IH]; simpl (Zsum _); [simpl; lia|]. rewrite IH. simpl length. lia. Qed.

Lemma loop_add_const (n : nat) (f : nat -> Z) (k a : Z) :
  (forall i, i < n -> f i = k) ->
  loop n (fun i acc => (acc + f i)%Z) a = (a + Z.of_nat n * k)%Z.
Proof.
  intros Hf.
  rewrite (loop_ext_lt n _ (fun _ acc => (acc + k)%Z))
    by (intros i x Hi; rewrite Hf by exact Hi; reflexivity).
  rewrite (loop_add n (fun _ => k)), Zsum_const, length_seq. reflexivity.
Qed.

(** X3 ([State::sum]): the inner loop of [sum] runs over the first N
    columns, not over the M columns of a row. On a lattice with N <= M a
    write to a column from N on leaves the sum as it was, and the N×M
    lattice of true cells sums to N·N, not N·M. *)
Theorem X3_sum_first_columns (state : State.t) (r c : nat) (value : bool) :
  well_formed state ->
  r < State.rows state -> State.rows state <= c -> c < State.cols state ->
  State.sum (State.assign state r c value) = State.sum state /\
  State.sum (uniform (State.rows state) (State.cols state) true) =
    Z.of_nat (State.rows state * State.rows state).
Proof.
  intros Hwf Hr Hlow Hc. split.
  - unfold State.sum. rewrite rows_assign.
    apply loop_ext_lt. intros n acc Hn.
    apply loop_ext_lt. intros m acc' Hm.
    rewrite at_assign by assumption.
    destruct (Nat.eqb_spec m c); [lia|]. rewrite andb_false_r. reflexivity.
  - unfold State.sum. cbn [State.rows uniform].
    set (N := State.rows state) in *. set (M := State.cols state) in *.
    rewrite (loop_ext_lt N _ (fun _ acc => (acc + Z.of_nat N)%Z)).
    + rewrite (loop_add N (fun _ => Z.of_nat N)), Zsum_const, length_seq. lia.
    + intros n acc Hn.
      rewrite (loop_add_const N _ 1%Z); [lia|].
      intros m Hm. rewrite at_uniform by lia. reflexivity.
Qed.

(** X3 on the 2×5 lattice: a write to column 3 is not seen, and ten true
    cells sum to four. *)
Lemma X3_sum_first_columns_witness :
  State.sum (State.assign lattice_2x5 1 3 true) = State.sum lattice_2x5 /\
  State.sum (uniform 2 5 true) = 4%Z.
Proof.
  assert (well_formed lattice_2x5) as Hwf.
  { split; [reflexivity|]. repeat constructor. }
  apply (X3_sum_first_columns lattice_2x5 1 3 true Hwf); simpl; lia.
Defined.

Lemma length_resize {U : Type} (n : nat) (zero : U) (vec : list U) :
  length (State.resize n zero vec) = n.
Proof.
  unfold State.resize. rewrite length_app, length_take, length_replicate. lia.
Qed.

(** X4 ([State::createVector1d]): whatever the vector held, it comes back
    with N·M elements, and the element at index i·M + j is the cast of the
    cell (i, j): the lattice in row-major order. *)
Theorem X4_createVector1d_row_major {U : Type} (cast : bool -> U) (zero : U)
    (state : State.t) (vec : list U) :
  let N := State.rows state in
  let M := State.cols state in
  let out := State.createVector1d cast zero state vec in
  length out = N * M /\
  forall i j : nat,
    i < N -> j < M -> out !! (i * M + j) = Some (cast (State.at_ state i j)).
Proof.
  intros N M out. subst out. unfold State.createVector1d. fold N M. cbv zeta.
  apply (loop_ind (fun n v =>
           length v = N * M /\
           forall i j, i < n -> j < M ->
             v !! (i * M + j) = Some (cast (State.at_ state i j)))).
  - split; [apply length_resize|]. intros i j Hi. lia.
  - intros n v Hn [Hlen Hdone].
    assert (let v' := loop M (fun j v0 =>
                        <[n * M + j := cast (State.at_ state n j)]> v0) v in
            length v' = N * M /\
            (forall i j, i < n -> j < M ->
               v' !! (i * M + j) = Some (cast (State.at_ state i j))) /\
            (forall j, j < M ->
               v' !! (n * M + j) = Some (cast (State.at_ state n j))))
      as Hrow.
    { apply (loop_ind (fun m v' =>
               length v' = N * M /\
               (forall i j, i < n -> j < M ->
                  v' !! (i * M + j) = Some (cast (State.at_ state i j))) /\
               (forall j, j < m ->
                  v' !! (n * M + j) = Some (cast (State.at_ state n j))))).
      - split; [exact Hlen|]. split; [exact Hdone|]. intros j Hj. lia.
      - intros m v' Hm (Hlen' & Hrows & Hcols).
        split; [rewrite length_insert; exact Hlen'|]. split.
        + intros i j Hi Hj. rewrite list_lookup_insert_ne by nia.
          apply Hrows; assumption.
        + intros j Hj. destruct (decide (j = m)) as [->|Hne].
          * apply list_lookup_insert_eq. nia.
          * rewrite list_lookup_insert_ne by lia. apply Hcols. lia. }
    destruct Hrow as (Hlen' & Hrows & Hcols).
    split; [exact Hlen'|]. intros i j Hi Hj.
    destruct (decide (i = n)) as [->|Hne].
    + apply Hcols, Hj.
    + apply Hrows; [lia | exact Hj].
Qed.

(* ===================================================================== *)
(** * Magnetization and energy *)
(* ===================================================================== *)

Lemma isingSpin_bound (b : bool) :
  (-1 <= IsingModel.isingSpin b <= 1)%Z.
Proof. destruct b; simpl; lia. Qed.

Lemma Zsum_abs_bound {A : Type} (f : A -> Z) (k : Z) (l : list A) :
  (forall x, In x l -> (Z.abs (f x) <= k)%Z) ->
  (Z.abs (Zsum (map f l)) <= Z.of_nat (length l) * k)%Z.
Proof.
  induction l as [|x l IH]; intros Hf; [simpl; lia|].
  assert (Z.abs (f x) <= k)%Z as Hx by (apply Hf; left; reflexivity).
  assert (Z.abs (Zsum (map f l)) <= Z.of_nat (length l) * k)%Z as Hl.
  { apply IH. intros y Hy. apply Hf. right. exact Hy. }
  change (Zsum (map f (x :: l))) with (f x + Zsum (map f l))%Z.
  change (length (x :: l)) with (S (length l)). lia.
Qed.

Lemma Zsum_map_ext_in {A : Type} (f g : A -> Z) (l : list A) :
  (forall x, In x l -> f x = g x) -> Zsum (map f l) = Zsum (map g l).
Proof.
  induction l as [|x l IH]; intros Hfg; [reflexivity|].
  change (f x + Zsum (map f l) = g x + Zsum (map g l))%Z.
  rewrite Hfg by (left; reflexivity).
  rewrite IH by (intros y Hy; apply Hfg; right; exact Hy). reflexivity.
Qed.

Lemma magnetization_sum (state : State.t) :
  IsingModel.magnetization state =
  Zsum (map (fun n =>
               Zsum (map (fun m => IsingModel.isingSpin (State.at_ state n m))
                         (seq 0 (State.cols state))))
            (seq 0 (State.rows state))).
Proof.
  unfold IsingModel.magnetization.
  rewrite (loop_ext _ _ (fun n Mag =>
    (Mag + Zsum (map (fun m => IsingModel.isingSpin (State.at_ state n m))
                     (seq 0 (State.cols state))))%Z)).
  - rewrite (loop_add _ (fun n =>
      Zsum (map (fun m => IsingModel.isingSpin (State.at_ state n m))
                (seq 0 (State.cols state))))). lia.
  - intros n Mag.
    apply (loop_add _ (fun m => IsingModel.isingSpin (State.at_ state n m))).
Qed.

Lemma magnetization_bound (state : State.t) :
  (Z.abs (IsingModel.magnetization state) <=
   Z.of_nat (State.rows state * State.cols state))%Z.
Proof.
  rewrite magnetization_sum.
  pose proof (Zsum_abs_bound
    (fun n => Zsum (map (fun m => IsingModel.isingSpin (State.at_ state n m))
                        (seq 0 (State.cols state))))
    (Z.of_nat (State.cols state)) (seq 0 (State.rows state))) as Hrows.
  rewrite length_seq in Hrows. rewrite Nat2Z.inj_mul. apply Hrows.
  intros n _.
  pose proof (Zsum_abs_bound
    (fun m => IsingModel.isingSpin (State.at_ state n m)) 1%Z
    (seq 0 (State.cols state))) as Hcols.
  rewrite length_seq in Hcols. rewrite Z.mul_1_r in Hcols. apply Hcols.
  intros m _. pose proof (isingSpin_bound (State.at_ state n m)). lia.
Qed.

Lemma magnetization_uniform (N M : nat) (value : bool) :
  IsingModel.magnetization (uniform N M value) =
  (IsingModel.isingSpin value * Z.of_nat (N * M))%Z.
Proof.
  rewrite magnetization_sum. cbn [State.rows State.cols uniform].
  rewrite (Zsum_map_ext_in _
    (fun _ => (Z.of_nat M * IsingModel.isingSpin value)%Z)).
  - rewrite Zsum_const, length_seq. lia.
  - intros n Hn. apply in_seq in Hn.
    rewrite (Zsum_map_ext_in _ (fun _ => IsingModel.isingSpin value)).
    + rewrite Zsum_const, length_seq. reflexivity.
    + intros m Hm. apply in_seq in Hm. rewrite at_uniform by lia. reflexivity.
Qed.

Lemma spinCount_small (state : State.t) :
  State.rows state <> 0 -> State.cols state <> 0 ->
  (Z.of_nat (State.rows state) * Z.of_nat (State.cols state) < 2 ^ 64)%Z ->
  IsingModel.spinCount state =
    Z.of_nat (State.rows state * State.cols state) /\
  (0 < IsingModel.spinCount state)%Z.
Proof.
  intros HN HM Hfit. unfold IsingModel.spinCount.
  rewrite Nat2Z.inj_mul, Z.mod_small by nia. split; [reflexivity | nia].
Qed.

(** X5 ([IsingModel::magnetization], [averageSpin]): the magnetization of
    a lattice lies between -N·M and N·M, and the average spin of a lattice
    with N, M >= 1 is a number between -1 and 1. *)
Theorem X5_magnetization_bounds (state : State.t) :
  State.rows state <> 0 -> State.cols state <> 0 ->
  (Z.of_nat (State.rows state) * Z.of_nat (State.cols state) < 2 ^ 64)%Z ->
  (Z.abs (IsingModel.magnetization state) <=
   Z.of_nat (State.rows state * State.cols state))%Z /\
  exists q : Q,
    IsingModel.averageSpin state = inr q /\ (-1 <= q)%Q /\ (q <= 1)%Q.
Proof.
  intros HN HM Hfit. pose proof (magnetization_bound state) as Hmag.
  split; [exact Hmag|].
  destruct (averageSpin_defined state HN HM Hfit) as [_ Havg].
  destruct (spinCount_small state HN HM Hfit) as [Hcount Hpos].
  eexists. split; [exact Havg|]. rewrite Hcount in *.
  set (n := Z.of_nat (State.rows state * State.cols state)) in *.
  set (m := IsingModel.magnetization state) in *.
  assert (0 < inject_Z n)%Q as Hn.
  { change 0%Q with (inject_Z 0). rewrite <- Zlt_Qlt. exact Hpos. }
  split.
  - apply Qle_shift_div_l; [exact Hn|].
    change (-1)%Q with (inject_Z (-1)).
    rewrite <- inject_Z_mult, <- Zle_Qle. lia.
  - apply Qle_shift_div_r; [exact Hn|].
    change 1%Q with (inject_Z 1).
    rewrite <- inject_Z_mult, <- Zle_Qle. lia.
Qed.

(** X5 on the 2×5 lattice. *)
Lemma X5_magnetization_bounds_witness :
  (Z.abs (IsingModel.magnetization lattice_2x5) <= 10)%Z.
Proof.
  assert (State.rows lattice_2x5 <> 0) as HN by (simpl; lia).
  assert (State.cols lattice_2x5 <> 0) as HM by (simpl; lia).
  assert (Z.of_nat (State.rows lattice_2x5) *
          Z.of_nat (State.cols lattice_2x5) < 2 ^ 64)%Z as Hfit
    by (simpl; lia).
  exact (proj1 (X5_magnetization_bounds lattice_2x5 HN HM Hfit)).
Defined.

(** X6 ([State(const T&)] with [averageSpin]): a lattice constructed with
    every spin up has average spin exactly 1, and one constructed with
    every spin down has average spin exactly -1. *)
Theorem X6_uniform_average_spin (N M : nat) (value : bool)
    (state : State.t) :
  (Z.of_nat N * Z.of_nat M < 2 ^ 64)%Z ->
  State.create N M value = inr state ->
  exists q : Q,
    IsingModel.averageSpin state = inr q /\
    (q == inject_Z (IsingModel.isingSpin value))%Q.
Proof.
  intros Hfit Hcreate.
  assert (N <> 0 /\ M <> 0) as [HN HM].
  { unfold State.create in Hcreate.
    destruct (Nat.eqb_spec N 0); [discriminate|].
    destruct (Nat.eqb_spec M 0); [discriminate|]. split; assumption. }
  rewrite create_uniform in Hcreate by assumption.
  injection Hcreate as <-.
  destruct (averageSpin_defined (uniform N M value) HN HM Hfit) as [_ Havg].
  destruct (spinCount_small (uniform N M value) HN HM Hfit) as [Hcount Hpos].
  eexists. split; [exact Havg|].
  rewrite Hcount, magnetization_uniform in *. cbn [State.rows State.cols uniform] in *.
  rewrite inject_Z_mult. apply Qdiv_mult_l.
  intros Hzero. change 0%Q with (inject_Z 0) in Hzero.
  apply (proj1 (inject_Z_injective _ _)) in Hzero. lia.
Qed.

(** X6 for the all-up 4×4 lattice. *)
Lemma X6_uniform_average_spin_witness :
  exists q : Q,
    IsingModel.averageSpin lattice_4x4_up = inr q /\ (q == 1)%Q.
Proof.
  assert (Z.of_nat 4 * Z.of_nat 4 < 2 ^ 64)%Z as Hfit by (simpl; lia).
  exact (X6_uniform_average_spin 4 4 true lattice_4x4_up Hfit eq_refl).
Defined.

Lemma energy_sum (self : IsingModel.t) (state : State.t) :
  IsingModel.energy self state =
  (- IsingModel.J (IsingModel.param self) *
   Zsum (map (fun r =>
          Zsum (map (fun c =>
                 IsingModel.isingSpin (State.at_ state r c) *
                 (IsingModel.isingSpin (State.at_ state r (c + 1)) +
                  IsingModel.isingSpin (State.at_ state (r + 1) c)))
               (seq 0 (State.cols state - 1))))
        (seq 0 (State.rows state - 1))))%Z.
Proof.
  unfold IsingModel.energy.
  set (J := IsingModel.J (IsingModel.param self)).
  set (term := fun r c : nat =>
    (IsingModel.isingSpin (State.at_ state r c) *
       (IsingModel.isingSpin (State.at_ state r (c + 1)) +
        IsingModel.isingSpin (State.at_ state (r + 1) c)))%Z).
  rewrite (loop_ext _ _
    (fun r e => (e + - J * Zsum (map (term r) (seq 0 (State.cols state - 1))))%Z)).
  2:{ intros r e. rewrite (loop_add _ (fun c => (- J * term r c)%Z)).
      rewrite Zsum_scale. reflexivity. }
  rewrite (loop_add _ (fun r =>
    (- J * Zsum (map (term r) (seq 0 (State.cols state - 1))))%Z)).
  rewrite Zsum_scale, Z.add_0_l. reflexivity.
Qed.

Lemma energy_abs_bound (self : IsingModel.t) (state : State.t) :
  (Z.abs (IsingModel.energy self state) <=
   Z.abs (IsingModel.J (IsingModel.param self)) *
   (2 * Z.of_nat (State.rows state - 1) * Z.of_nat (State.cols state - 1)))%Z.
Proof.
  rewrite energy_sum. rewrite Z.abs_mul, Z.abs_opp.
  apply Z.mul_le_mono_nonneg_l; [lia|].
  match goal with
  | |- (Z.abs (Zsum (map ?f ?l)) <= _)%Z =>
      pose proof (Zsum_abs_bound f
        (2 * Z.of_nat (State.cols state - 1))%Z l) as Hrows
  end.
  rewrite length_seq in Hrows.
  etransitivity; [apply Hrows|lia].
  intros r _.
  match goal with
  | |- (Z.abs (Zsum (map ?f ?l)) <= _)%Z =>
      pose proof (Zsum_abs_bound f 2%Z l) as Hcols
  end.
  rewrite length_seq in Hcols.
  etransitivity; [apply Hcols|lia].
  intros c _.
  pose proof (isingSpin_bound (State.at_ state r c)).
  pose proof (isingSpin_bound (State.at_ state r (c + 1))).
  pose proof (isingSpin_bound (State.at_ state (r + 1) c)). nia.
Qed.

Lemma energy_single_line (self : IsingModel.t) (state : State.t) :
  State.rows state = 1 \/ State.cols state = 1 ->
  IsingModel.energy self state = 0%Z.
Proof.
  intros Hone. pose proof (energy_abs_bound self state) as Hbound.
  destruct Hone as [Hone | Hone]; rewrite Hone in Hbound;
    simpl in Hbound; lia.
Qed.

(** X7 ([IsingModel::energy]): the energy of any lattice is at most
    2·|J|·(N-1)·(M-1) in magnitude; a lattice with a single row or a
    single column has energy 0 whatever its spins; and a lattice of equal
    spins, up or down, has energy -2·J·(N-1)·(M-1), the least possible
    when J >= 0. *)
Theorem X7_energy_range (self : IsingModel.t) (state : State.t) :
  let J := IsingModel.J (IsingModel.param self) in
  let bonds := (2 * Z.of_nat (State.rows state - 1) *
                Z.of_nat (State.cols state - 1))%Z in
  (Z.abs (IsingModel.energy self state) <= Z.abs J * bonds)%Z /\
  (State.rows state = 1 \/ State.cols state = 1 ->
   IsingModel.energy self state = 0%Z) /\
  (forall (N M : nat) (value : bool),
     IsingModel.energy self (uniform N M value) =
     (- J * (2 * Z.of_nat (N - 1) * Z.of_nat (M - 1)))%Z) /\
  ((0 <= J)%Z -> (- J * bonds <= IsingModel.energy self state)%Z).
Proof.
  intros J bonds. pose proof (energy_abs_bound self state) as Hbound.
  fold J bonds in Hbound.
  split; [exact Hbound|]. split; [apply energy_single_line|]. split.
  - intros N M value. rewrite energy_sum. fold J.
    cbn [State.rows State.cols uniform]. f_equal.
    rewrite (Zsum_map_ext_in _ (fun _ => (Z.of_nat (M - 1) * 2)%Z)).
    + rewrite Zsum_const, length_seq. lia.
    + intros r Hr. apply in_seq in Hr.
      rewrite (Zsum_map_ext_in _ (fun _ => 2%Z)).
      * rewrite Zsum_const, length_seq. reflexivity.
      * intros c Hc. apply in_seq in Hc.
        rewrite !at_uniform by lia. destruct value; reflexivity.
  - intros HJ. lia.
Qed.

(* ===================================================================== *)
(** * What the sums read *)
(* ===================================================================== *)

Ltac inside_array :=
  repeat match goal with
         | |- context [Nat.eqb ?a ?b] => destruct (Nat.eqb_spec a b)
         end; lia.

(** X8 ([energy], [magnetization], [neighborSpin]): the three sums read
    cells of the N×M array only. Two lattices that agree on the array
    have the same energy and magnetization, and the same neighbour sum
    at every site of the array in every topology, whatever lies past the
    array. *)
Theorem X8_reads_inside_array (self : IsingModel.t) (L : LatticeType)
    (state state' : State.t) (row col : nat) :
  agree state state' ->
  row < State.rows state -> col < State.cols state ->
  IsingModel.energy self state = IsingModel.energy self state' /\
  IsingModel.magnetization state = IsingModel.magnetization state' /\
  IsingHeatBathMethod.neighborSpin L state row col =
  IsingHeatBathMethod.neighborSpin L state' row col.
Proof.
  intros (HN & HM & Hcells) Hrow Hcol. split; [|split].
  - rewrite !energy_sum, <- HN, <- HM. f_equal.
    apply Zsum_map_ext_in. intros r Hr. apply in_seq in Hr.
    apply Zsum_map_ext_in. intros c Hc. apply in_seq in Hc.
    rewrite !Hcells by lia. reflexivity.
  - rewrite !magnetization_sum, <- HN, <- HM.
    apply Zsum_map_ext_in. intros r Hr. apply in_seq in Hr.
    apply Zsum_map_ext_in. intros c Hc. apply in_seq in Hc.
    rewrite Hcells by lia. reflexivity.
  - destruct L; unfold IsingHeatBathMethod.neighborSpin;
      [unfold IsingHeatBathMethod.neighborSpin_Square
      |unfold IsingHeatBathMethod.neighborSpin_Triangle
      |unfold IsingHeatBathMethod.neighborSpin_Rhombus
      |unfold IsingHeatBathMethod.neighborSpin_Hexagonal];
      cbv zeta; rewrite <- HN, <- HM;
      destruct (Nat.ltb_spec 2 (State.rows state));
      destruct (Nat.ltb_spec 2 (State.cols state)); cbn [andb];
      repeat match goal with
             | |- context [if ?a mod ?b =? ?c then _ else _] =>
                 destruct (a mod b =? c)
             end;
      rewrite ?Hcells by inside_array; reflexivity.
Qed.

(** X8 on the all-up 4×4 lattice and its padded copy. *)
Lemma X8_reads_inside_array_witness :
  IsingHeatBathMethod.neighborSpin Triangle lattice_4x4_up 3 3 =
  IsingHeatBathMethod.neighborSpin Triangle lattice_4x4_up_padded 3 3.
Proof.
  assert (agree lattice_4x4_up lattice_4x4_up_padded) as Hagree.
  { split; [reflexivity|]. split; [reflexivity|]. intros r c Hr Hc.
    simpl in Hr, Hc.
    destruct r as [|[|[|[|r]]]]; try lia;
      destruct c as [|[|[|[|c]]]]; try lia; reflexivity. }
  assert (3 < State.rows lattice_4x4_up) as Hr by (simpl; lia).
  assert (3 < State.cols lattice_4x4_up) as Hc by (simpl; lia).
  exact (proj2 (proj2 (X8_reads_inside_array default_model Triangle
                         lattice_4x4_up lattice_4x4_up_padded 3 3
                         Hagree Hr Hc))).
Defined.

(** X9 ([neighborSpin]): in every topology and on every lattice, the
    degenerate ones included, the neighbour sum at a site is at most the
    number of neighbours of the topology in magnitude: 4 for Square, 6 for
    Triangle, 4 for Rhombus, 3 for Hexagonal. *)
Theorem X9_neighborSpin_bound (L : LatticeType) (state : State.t)
    (row col : nat) :
  (Z.abs (IsingHeatBathMethod.neighborSpin L state row col) <=
   coordination L)%Z.
Proof.
  destruct L; unfold IsingHeatBathMethod.neighborSpin, coordination;
    [unfold IsingHeatBathMethod.neighborSpin_Square
    |unfold IsingHeatBathMethod.neighborSpin_Triangle
    |unfold IsingHeatBathMethod.neighborSpin_Rhombus
    |unfold IsingHeatBathMethod.neighborSpin_Hexagonal];
    cbv zeta;
    destruct (2 <? State.rows state); destruct (2 <? State.cols state);
    cbn [andb];
    repeat match goal with
           | |- context [if ?a mod ?b =? ?c then _ else _] =>
               destruct (a mod b =? c)
           end;
    repeat match goal with
           | |- context [IsingModel.isingSpin ?b] =>
               let H := fresh "Hspin" in
               pose proof (isingSpin_bound b) as H;
               generalize dependent (IsingModel.isingSpin b); intros
           end; lia.
Qed.

(* ===================================================================== *)
(** * What the samplers keep *)
(* ===================================================================== *)

Lemma modulo_in_range : in_range modulo_distributions.
Proof.
  intros a b g Hab. cbn [uniform_int_distribution modulo_distributions].
  destruct (mt19937.next g) as [y g']. cbn [fst].
  pose proof (Z.mod_pos_bound y (b - a + 1) ltac:(lia)). lia.
Qed.

Lemma well_formed_update_at (state : State.t) (row col : nat) (value : bool) :
  well_formed state ->
  well_formed (IsingHeatBathMethod.update_at state row col value).
Proof.
  intros Hwf. unfold IsingHeatBathMethod.update_at. cbv zeta.
  repeat match goal with
         | |- context [if ?b then _ else _] => destruct b
         end; repeat apply well_formed_assign; exact Hwf.
Qed.

Lemma iterM_invariant {A : Type} (P : A -> Prop) (l : list nat)
    (body : nat -> A -> Run A) (a : A) (w : Statics.t) :
  P a -> (forall i x w', P x -> P (body i x w').1) ->
  P (iterM l body a w).1.
Proof.
  intros Ha Hbody. revert a w Ha.
  induction l as [|i l IH]; intros a w Ha; simpl; [exact Ha|].
  unfold bind. specialize (Hbody i a w Ha).
  destruct (body i a w) as [a' w']. apply IH. exact Hbody.
Qed.

Section SamplersKeep.
Context {D : Distributions}.

Lemma heat_bath_update_unfold (L : LatticeType)
    (self : IsingHeatBathMethod.t) (state : State.t) (w : Statics.t) :
  let mt := Statics.IsingHeatBathMethod_mt L in
  let rowDraw :=
    uniform_int_distribution 0 (Z.of_nat (State.rows state - 1))
      (Statics.get mt w) in
  let colDraw :=
    uniform_int_distribution 0 (Z.of_nat (State.cols state - 1)) rowDraw.2 in
  let row := Z.to_nat rowDraw.1 in
  let col := Z.to_nat colDraw.1 in
  let uDraw := uniform_real_distribution 0 1 colDraw.2 in
  IsingHeatBathMethod.update L self state w =
    (IsingHeatBathMethod.update_at state row col
       (Double.ltb (Double.of_R uDraw.1)
          (IsingHeatBathMethod.transition_probability self
             (Double.of_Z
                (IsingHeatBathMethod.neighborSpin L state row col)))),
     Statics.set mt uDraw.2 w).
Proof.
  intros mt rowDraw colDraw row col uDraw.
  subst uDraw row col colDraw rowDraw mt.
  unfold IsingHeatBathMethod.update, bind, draw, ret. cbv zeta.
  destruct (uniform_int_distribution 0 _ (Statics.get _ w)) as [rowz g1].
  rewrite Statics_get_set. cbn [fst snd].
  destruct (uniform_int_distribution 0 _ g1) as [colz g2].
  rewrite Statics_get_set. cbn [fst snd].
  destruct (uniform_real_distribution 0 1 g2) as [u g3].
  rewrite !Statics_set_set. reflexivity.
Qed.

Lemma randomAction_unfold (self : IsingModel.t) (state : State.t)
    (w : Statics.t) :
  let rowDraw :=
    uniform_int_distribution 0 (Z.of_nat (State.rows state - 1))
      (Statics.get Statics.IsingModel_mt w) in
  let colDraw :=
    uniform_int_distribution 0 (Z.of_nat (State.cols state - 1))
      rowDraw.2 in
  IsingModel.randomAction self state w =
    (IsingModel.randomAction_at state (Z.to_nat rowDraw.1)
       (Z.to_nat colDraw.1),
     Statics.set Statics.IsingModel_mt colDraw.2 w).
Proof.
  intros rowDraw colDraw. subst colDraw rowDraw.
  unfold IsingModel.randomAction, bind, draw, ret.
  destruct (uniform_int_distribution 0 _ (Statics.get _ w)) as [row g1].
  rewrite Statics_get_set. cbn [fst snd].
  destruct (uniform_int_distribution 0 _ g1) as [col g2].
  rewrite Statics_set_set. reflexivity.
Qed.

Lemma metropolis_update_cases (self : IsingModel.t) (state : State.t)
    (w : Statics.t) :
  (IsingMetropolis.update self state w).1 = state \/
  (IsingMetropolis.update self state w).1 =
    (IsingModel.randomAction self state w).1.
Proof.
  unfold IsingMetropolis.update, MetropolisMethod.update, bind, ret.
  destruct (IsingModel.randomAction self state w) as [trial w1]. cbn [fst].
  destruct (_ <? _)%Z; [right; reflexivity|].
  destruct (IsingMetropolis.fRandAccept self _ _ w1) as [[|] w2];
    [right | left]; reflexivity.
Qed.

Lemma drawn_site_inside (a : Z) (n : nat) :
  n <> 0 -> (0 <= a <= Z.of_nat (n - 1))%Z -> Z.to_nat a < n.
Proof. intros Hn Ha. lia. Qed.

(** X10 ([randomAction], [update], [optimize]): when the integer
    distribution keeps to its range, the site a mutation or a heat-bath
    update draws lies in the array, and any number of steps of either
    sampler leaves a well-formed lattice well-formed with its N and M. *)
Theorem X10_samplers_keep_lattice (L : LatticeType) (K : nat)
    (model : IsingModel.t) (sampler : IsingHeatBathMethod.t)
    (state : State.t) (w : Statics.t) :
  in_range D -> well_formed state ->
  State.rows state <> 0 -> State.cols state <> 0 ->
  let N := State.rows state in
  let M := State.cols state in
  (exists row col : nat,
     row < N /\ col < M /\
     (IsingModel.randomAction model state w).1 =
       IsingModel.randomAction_at state row col) /\
  (exists (row col : nat) (value : bool),
     row < N /\ col < M /\
     (IsingHeatBathMethod.update L sampler state w).1 =
       IsingHeatBathMethod.update_at state row col value) /\
  (let state' := (IsingMetropolis.optimize K model state w).1 in
   well_formed state' /\ State.rows state' = N /\ State.cols state' = M) /\
  (let state' := (IsingHeatBathMethod.optimize L K sampler state w).1 in
   well_formed state' /\ State.rows state' = N /\ State.cols state' = M).
Proof.
  intros Hrange Hwf HN HM N M. split; [|split; [|split]].
  - rewrite randomAction_unfold. cbn [fst]. eexists _, _.
    split; [|split; [|reflexivity]];
      (apply drawn_site_inside; [assumption | apply Hrange; lia]).
  - rewrite heat_bath_update_unfold. cbn [fst]. eexists _, _, _.
    split; [|split; [|reflexivity]];
      (apply drawn_site_inside; [assumption | apply Hrange; lia]).
  - unfold IsingMetropolis.optimize, MetropolisMethod.optimize, loopM.
    apply (iterM_invariant (fun st =>
             well_formed st /\ State.rows st = N /\ State.cols st = M));
      [split; [exact Hwf | split; reflexivity]|].
    intros _ st w' (Hwf' & HN' & HM').
    fold (IsingMetropolis.update model st w').
    destruct (metropolis_update_cases model st w') as [-> | ->];
      [split; [exact Hwf' | split; assumption]|].
    rewrite randomAction_unfold. cbn [fst].
    rewrite randomAction_at_update_at.
    split; [apply well_formed_update_at, Hwf'|].
    match goal with
    | |- State.rows (IsingHeatBathMethod.update_at ?s ?r ?c ?v) = _ /\ _ =>
        destruct (update_at_dims s r c v) as [Hr Hc]
    end.
    rewrite Hr, Hc. split; assumption.
  - unfold IsingHeatBathMethod.optimize, loopM.
    apply (iterM_invariant (fun st =>
             well_formed st /\ State.rows st = N /\ State.cols st = M));
      [split; [exact Hwf | split; reflexivity]|].
    intros _ st w' (Hwf' & HN' & HM').
    rewrite heat_bath_update_unfold. cbn [fst].
    split; [apply well_formed_update_at, Hwf'|].
    match goal with
    | |- State.rows (IsingHeatBathMethod.update_at ?s ?r ?c ?v) = _ /\ _ =>
        destruct (update_at_dims s r c v) as [Hr Hc]
    end.
    rewrite Hr, Hc. split; assumption.
Qed.
End SamplersKeep.

(** X10 for 100 Metropolis steps on the all-up 4×4 lattice. *)
Lemma X10_samplers_keep_lattice_witness :
  well_formed
    (@IsingMetropolis.optimize modulo_distributions 100 default_model
       lattice_4x4_up (statics_seeded 42)).1.
Proof.
  assert (well_formed lattice_4x4_up) as Hwf.
  { split; [reflexivity|]. repeat constructor. }
  assert (State.rows lattice_4x4_up <> 0) as HN by (simpl; lia).
  assert (State.cols lattice_4x4_up <> 0) as HM by (simpl; lia).
  destruct (@X10_samplers_keep_lattice modulo_distributions Square 100
              default_model (IsingHeatBathMethod.Build default_model)
              lattice_4x4_up (statics_seeded 42)
              modulo_in_range Hwf HN HM) as (_ & _ & (Hkeep & _) & _).
  exact Hkeep.
Defined.

Lemma iterM_app {A : Type} (l1 l2 : list nat) (body : nat -> A -> Run A)
    (a : A) (w : Statics.t) :
  iterM (l1 ++ l2) body a w =
  (let '(a1, w1) := iterM l1 body a w in iterM l2 body a1 w1).
Proof.
  revert a w. induction l1 as [|i l1 IH]; intros a w; simpl; [reflexivity|].
  unfold bind. destruct (body i a w) as [a' w']. apply IH.
Qed.

Lemma iterM_ignores_index {A : Type} (l l' : list nat) (step : A -> Run A)
    (a : A) (w : Statics.t) :
  length l = length l' ->
  iterM l (fun _ x => step x) a w = iterM l' (fun _ x => step x) a w.
Proof.
  revert l' a w. induction l as [|i l IH]; intros [|i' l'] a w Hlen;
    try discriminate; simpl; [reflexivity|].
  unfold bind. destruct (step a w) as [a' w']. apply IH.
  simpl in Hlen. lia.
Qed.

Lemma loopM_add {A : Type} (K1 K2 : nat) (step : A -> Run A) (a : A)
    (w : Statics.t) :
  loopM (K1 + K2) (fun _ x => step x) a w =
  (let '(a1, w1) := loopM K1 (fun _ x => step x) a w in
   loopM K2 (fun _ x => step x) a1 w1).
Proof.
  unfold loopM. rewrite seq_app, iterM_app.
  destruct (iterM (seq 0 K1) _ a w) as [a1 w1].
  apply iterM_ignores_index. rewrite !length_seq. reflexivity.
Qed.

Section OptimizeComposes.
Variables ObjType StateType double : Type.
Variable lt : double -> double -> bool.
Variable fEnergy : ObjType -> StateType -> double.
Variable fAction : ObjType -> StateType -> Run StateType.
Variable fRandAccept : ObjType -> double -> double -> Run bool.
Context {D : Distributions}.

(** X11 ([MetropolisMethod::optimize], [IsingHeatBathMethod::optimize]):
    [optimize] over K1 + K2 steps is [optimize] over K1 steps followed by
    [optimize] over K2 steps on the lattice and the generators the first
    run leaves; over 0 steps it changes nothing. *)
Theorem X11_optimize_composes (K1 K2 : nat) (obj : ObjType)
    (state : StateType) (L : LatticeType) (sampler : IsingHeatBathMethod.t)
    (lattice : State.t) (w : Statics.t) :
  let metropolis :=
    MetropolisMethod.optimize ObjType StateType double lt fEnergy fAction
      fRandAccept in
  let heatbath := IsingHeatBathMethod.optimize L in
  metropolis (K1 + K2) obj state w =
    (let '(state1, w1) := metropolis K1 obj state w in
     metropolis K2 obj state1 w1) /\
  heatbath (K1 + K2) sampler lattice w =
    (let '(lattice1, w1) := heatbath K1 sampler lattice w in
     heatbath K2 sampler lattice1 w1) /\
  metropolis 0 obj state w = (state, w) /\
  heatbath 0 sampler lattice w = (lattice, w).
Proof.
  intros metropolis heatbath. subst metropolis heatbath.
  unfold MetropolisMethod.optimize, IsingHeatBathMethod.optimize.
  split; [apply loopM_add|]. split; [apply loopM_add|].
  split; reflexivity.
Qed.
End OptimizeComposes.

(* ===================================================================== *)
(** * The cells of one update *)
(* ===================================================================== *)

(** X12 ([randomAction], [IsingHeatBathMethod::update]): one update of a
    site of the array writes at most three cells, all of them in the
    array (the site, its image in the opposite edge row, its image in the
    opposite edge column); every one of them receives the new value and
    every other cell keeps its value. *)
Theorem X12_update_writes_three (state : State.t) (row col : nat)
    (value : bool) :
  well_formed state -> row < State.rows state -> col < State.cols state ->
  let N := State.rows state in
  let M := State.cols state in
  let cells := written_cells N M row col in
  length cells <= 3 /\
  Forall (fun p : site => p.1 < N /\ p.2 < M) cells /\
  forall r c : nat,
    (site_in (r, c) cells = true ->
     State.at_ (IsingHeatBathMethod.update_at state row col value) r c =
       value /\
     State.at_ (IsingModel.randomAction_at state row col) r c =
       negb (State.at_ state row col)) /\
    (site_in (r, c) cells = false ->
     State.at_ (IsingHeatBathMethod.update_at state row col value) r c =
       State.at_ state r c /\
     State.at_ (IsingModel.randomAction_at state row col) r c =
       State.at_ state r c).
Proof.
  intros Hwf Hrow Hcol N M cells. split; [|split].
  - subst cells. unfold written_cells.
    destruct (row =? 0); destruct (row =? N - 1);
      destruct (col =? 0); destruct (col =? M - 1); simpl; lia.
  - subst cells. unfold written_cells.
    destruct (row =? 0); destruct (row =? N - 1);
      destruct (col =? 0); destruct (col =? M - 1);
      repeat constructor; simpl; lia.
  - intros r c. rewrite randomAction_at_update_at.
    rewrite !update_at_cells by assumption. fold N M cells.
    split; intros ->; split; reflexivity.
Qed.

(** X12 at the corner (0, 0) of the all-up 4×4 lattice. *)
Lemma X12_update_writes_three_witness :
  length (written_cells 4 4 0 0) <= 3.
Proof.
  assert (well_formed lattice_4x4_up) as Hwf.
  { split; [reflexivity|]. repeat constructor. }
  assert (0 < State.rows lattice_4x4_up) as Hr by (simpl; lia).
  assert (0 < State.cols lattice_4x4_up) as Hc by (simpl; lia).
  exact (proj1 (X12_update_writes_three lattice_4x4_up 0 0 false Hwf Hr Hc)).
Defined.

Ltac split_eqb :=
  repeat match goal with
         | |- context [Nat.eqb ?a ?b] =>
             destruct (Nat.eqb_spec a b); try lia
         end.

(** X13 ([randomAction], [IsingHeatBathMethod::update]): on a lattice
    whose last row mirrors the first and whose last column mirrors the
    first, an update of any site that is not one of the four corners
    keeps both mirrors. *)
Theorem X13_mirror_kept_off_corners (state : State.t) (row col : nat)
    (value : bool) :
  well_formed state -> row < State.rows state -> col < State.cols state ->
  edge_mirrored state ->
  ~ corner (State.rows state) (State.cols state) row col ->
  edge_mirrored (IsingHeatBathMethod.update_at state row col value) /\
  edge_mirrored (IsingModel.randomAction_at state row col).
Proof.
  intros Hwf Hrow Hcol Hmirror Hcorner.
  assert (forall v, edge_mirrored
            (IsingHeatBathMethod.update_at state row col v)) as Hall.
  { intros v r c.
    destruct (update_at_dims state row col v) as [-> ->].
    intros Hr Hc. destruct (Hmirror r c Hr Hc) as [Hrows Hcols].
    rewrite !update_at_cells by assumption.
    unfold corner in Hcorner. clear Hmirror Hwf.
    set (N := State.rows state) in *. set (M := State.cols state) in *.
    unfold written_cells, site_in.
    destruct (Nat.eqb_spec row 0) as [Hr0|Hr0];
      [|destruct (Nat.eqb_spec row (N - 1)) as [HrN|HrN]];
      (destruct (Nat.eqb_spec col 0) as [Hc0|Hc0];
       [|destruct (Nat.eqb_spec col (M - 1)) as [HcM|HcM]]);
      try (exfalso; lia);
      cbn [existsb app fst snd]; clear Hcorner;
      (split;
       [clear Hcols; split_eqb; cbn [andb orb];
        first [reflexivity | exact Hrows]
       |clear Hrows; split_eqb; cbn [andb orb];
        first [reflexivity | exact Hcols]]). }
  split; [apply Hall|]. rewrite randomAction_at_update_at. apply Hall.
Qed.

(** X13 at the edge site (0, 2) of the all-up 4×4 lattice. *)
Lemma X13_mirror_kept_off_corners_witness :
  edge_mirrored (IsingModel.randomAction_at lattice_4x4_up 0 2).
Proof.
  assert (well_formed lattice_4x4_up) as Hwf.
  { split; [reflexivity|]. repeat constructor. }
  assert (0 < State.rows lattice_4x4_up) as Hr by (simpl; lia).
  assert (2 < State.cols lattice_4x4_up) as Hc by (simpl; lia).
  assert (edge_mirrored lattice_4x4_up) as Hmirror.
  { intros r c Hr' Hc'. simpl in Hr', Hc'.
    destruct r as [|[|[|[|r]]]]; try lia;
      destruct c as [|[|[|[|c]]]]; try lia; split; reflexivity. }
  assert (~ corner (State.rows lattice_4x4_up) (State.cols lattice_4x4_up)
            0 2) as Hcorner.
  { unfold corner. simpl. lia. }
  exact (proj2 (X13_mirror_kept_off_corners lattice_4x4_up 0 2 false
                  Hwf Hr Hc Hmirror Hcorner)).
Defined.

(** X14 ([randomAction]): the mutation of a site flips it, so the same
    mutation applied twice gives the site its first value back and writes
    that value to its edge images; on a lattice whose images of the site
    hold the value of the site, two mutations restore the lattice. *)
Theorem X14_mutation_twice (state : State.t) (row col : nat) :
  well_formed state -> row < State.rows state -> col < State.cols state ->
  let once := IsingModel.randomAction_at state row col in
  let twice := IsingModel.randomAction_at once row col in
  State.at_ once row col = negb (State.at_ state row col) /\
  twice =
    IsingHeatBathMethod.update_at state row col (State.at_ state row col) /\
  ((forall r c : nat,
      site_in (r, c)
        (written_cells (State.rows state) (State.cols state) row col) = true ->
      State.at_ state r c = State.at_ state row col) ->
   twice = state).
Proof.
  intros Hwf Hrow Hcol once twice.
  assert (forall r c,
            State.at_ once r c =
            if site_in (r, c)
                 (written_cells (State.rows state) (State.cols state) row col)
            then negb (State.at_ state row col) else State.at_ state r c)
    as Honce.
  { intros r c. subst once. rewrite randomAction_at_update_at.
    apply update_at_cells; assumption. }
  assert (site_in (row, col)
            (written_cells (State.rows state) (State.cols state) row col) =
          true) as Hsite.
  { unfold written_cells, site_in. cbn [existsb fst snd].
    rewrite !Nat.eqb_refl. reflexivity. }
  assert (State.at_ once row col = negb (State.at_ state row col)) as Hflip.
  { rewrite Honce, Hsite. reflexivity. }
  assert (well_formed once /\ State.rows once = State.rows state /\
          State.cols once = State.cols state) as (Hwf1 & HN1 & HM1).
  { subst once. rewrite randomAction_at_update_at.
    split; [apply well_formed_update_at, Hwf | apply update_at_dims]. }
  assert (forall r c,
            State.at_ twice r c =
            if site_in (r, c)
                 (written_cells (State.rows state) (State.cols state) row col)
            then State.at_ state row col else State.at_ state r c)
    as Htwice.
  { intros r c. subst twice. rewrite randomAction_at_update_at.
    rewrite update_at_cells by (rewrite ?HN1, ?HM1; assumption).
    rewrite HN1, HM1, Hflip, negb_involutive, Honce.
    destruct (site_in (r, c)
                (written_cells (State.rows state) (State.cols state) row col));
      reflexivity. }
  assert (well_formed twice /\ State.rows twice = State.rows state /\
          State.cols twice = State.cols state) as (Hwf2 & HN2 & HM2).
  { subst twice. rewrite randomAction_at_update_at.
    split; [apply well_formed_update_at, Hwf1|].
    match goal with
    | |- State.rows (IsingHeatBathMethod.update_at ?s ?r ?c ?v) = _ /\ _ =>
        destruct (update_at_dims s r c v) as [-> ->]
    end. split; assumption. }
  split; [exact Hflip|]. split.
  - apply state_ext; [exact Hwf2 | apply well_formed_update_at, Hwf |].
    destruct (update_at_dims state row col (State.at_ state row col))
      as [HN3 HM3].
    split; [congruence|]. split; [congruence|].
    intros r c _ _. rewrite Htwice, update_at_cells by assumption.
    reflexivity.
  - intros Himages. apply state_ext; [exact Hwf2 | exact Hwf |].
    split; [exact HN2|]. split; [exact HM2|].
    intros r c _ _. rewrite Htwice.
    destruct (site_in (r, c) _) eqn:Hin; [|reflexivity].
    symmetry. apply Himages, Hin.
Qed.

(** X14 at the corner (0, 0) of the all-up 4×4 lattice. *)
Lemma X14_mutation_twice_witness :
  IsingModel.randomAction_at (IsingModel.randomAction_at lattice_4x4_up 0 0)
    0 0 = lattice_4x4_up.
Proof.
  assert (well_formed lattice_4x4_up) as Hwf.
  { split; [reflexivity|]. repeat constructor. }
  assert (0 < State.rows lattice_4x4_up) as Hr by (simpl; lia).
  assert (0 < State.cols lattice_4x4_up) as Hc by (simpl; lia).
  apply (X14_mutation_twice lattice_4x4_up 0 0 Hwf Hr Hc).
  intros r c Hin.
  destruct r as [|[|[|[|r]]]]; destruct c as [|[|[|[|c]]]];
    first [reflexivity | discriminate Hin].
Defined.

(* ===================================================================== *)
(** * Acceptance and transition probabilities *)
(* ===================================================================== *)

Section Acceptance.
Context {D : Distributions}.

End Acceptance.




(* ===================================================================== *)
(** * The free energy and the gradient descents *)
(* ===================================================================== *)




(* ===================================================================== *)
(** * The viewer's step counter *)
(* ===================================================================== *)

Section Viewer.
Variable metropolis : IsingModel.t -> State.t -> Run State.t.
Variable headBath : IsingModel.t -> State.t -> Run State.t.

Lemma updateCell_fields (item : CellItem.t) (w : Statics.t) :
  let item' := (CellItem.updateCell metropolis headBath item w).1 in
  CellItem.stepCount item' =
    (if (CellItem.stepCount item <? CellItem._maxCount item)%Z
     then CellItem.stepCount item + 1 else CellItem.stepCount item)%Z /\
  CellItem._maxCount item' = CellItem._maxCount item /\
  CellItem.method item' = CellItem.method item /\
  CellItem.ising item' = CellItem.ising item /\
  ((CellItem.method item <> 0)%Z -> (CellItem.method item <> 1)%Z ->
   CellItem.state item' = CellItem.state item).
Proof.
  unfold CellItem.updateCell, bind, ret.
  destruct (CellItem.stepCount item <? CellItem._maxCount item)%Z;
    [|cbn [fst]; repeat split; reflexivity].
  destruct (Z.eqb_spec (CellItem.method item) 0) as [H0|H0].
  { destruct (metropolis _ _ w) as [state' w'].
    cbn [fst CellItem.stepCount CellItem._maxCount CellItem.method
         CellItem.ising]. repeat split; try reflexivity. contradiction. }
  destruct (Z.eqb_spec (CellItem.method item) 1) as [H1|H1].
  { destruct (headBath _ _ w) as [state' w'].
    cbn [fst CellItem.stepCount CellItem._maxCount CellItem.method
         CellItem.ising]. repeat split; try reflexivity. contradiction. }
  cbn [fst]. repeat split; reflexivity.
Qed.

Lemma updateCell_stopped (item : CellItem.t) (w : Statics.t) :
  (CellItem._maxCount item <= CellItem.stepCount item)%Z ->
  CellItem.updateCell metropolis headBath item w = (item, w).
Proof.
  intros Hmax. unfold CellItem.updateCell.
  destruct (Z.ltb_spec (CellItem.stepCount item) (CellItem._maxCount item));
    [lia | reflexivity].
Qed.

Lemma iterM_updateCell (l : list nat) (item : CellItem.t) (w : Statics.t) :
  let step := fun (_ : nat) x => CellItem.updateCell metropolis headBath x in
  let item' := (iterM l step item w).1 in
  CellItem.stepCount item' =
    Z.max (CellItem.stepCount item)
      (Z.min (CellItem.stepCount item + Z.of_nat (length l))
         (CellItem._maxCount item)) /\
  CellItem._maxCount item' = CellItem._maxCount item /\
  CellItem.method item' = CellItem.method item /\
  CellItem.ising item' = CellItem.ising item /\
  ((CellItem.method item <> 0)%Z -> (CellItem.method item <> 1)%Z ->
   CellItem.state item' = CellItem.state item) /\
  ((CellItem._maxCount item <= CellItem.stepCount item)%Z ->
   iterM l step item w = (item, w)).
Proof.
  cbv zeta. revert item w. induction l as [|i l IH]; intros item w.
  - simpl. repeat split; try reflexivity. lia.
  - cbn [iterM length]. unfold bind.
    pose proof (updateCell_fields item w) as Hstep.
    pose proof (updateCell_stopped item w) as Hstop.
    destruct (CellItem.updateCell metropolis headBath item w)
      as [item1 w1].
    cbv zeta in Hstep. cbn [fst] in Hstep.
    destruct Hstep as (Hsc & Hmax & Hmeth & Hising & Hstate).
    specialize (IH item1 w1).
    destruct IH as (IHsc & IHmax & IHmeth & IHising & IHstate & IHstop).
    rewrite IHsc, IHmax, IHmeth, IHising, Hsc, Hmax, Hmeth, Hising.
    split.
    { destruct (Z.ltb_spec (CellItem.stepCount item)
                  (CellItem._maxCount item)); lia. }
    split; [reflexivity|]. split; [reflexivity|]. split; [reflexivity|].
    split.
    { intros H0 H1. rewrite IHstate by congruence. apply Hstate; assumption. }
    intros Hfull. specialize (Hstop Hfull). injection Hstop as -> ->.
    apply IHstop. exact Hfull.
Qed.

(** X18 ([CellItem::updateCell]): K timeouts of the viewer's timer move
    the step counter to its limit [_maxCount] and no further, and leave
    the limit, the method and the model alone; once the counter has
    reached the limit a timeout changes nothing, neither the lattice nor a
    generator; and with a method index that is neither 0 (Metropolis) nor
    1 (heat bath) the counter runs while the lattice stays as it is. This
    holds whatever the two samplers do to the lattice. *)
Theorem X18_viewer_counter (K : nat) (item : CellItem.t) (w : Statics.t) :
  let timeouts := CellItem.timeouts metropolis headBath in
  let item' := (timeouts K item w).1 in
  CellItem.stepCount item' =
    Z.max (CellItem.stepCount item)
      (Z.min (CellItem.stepCount item + Z.of_nat K)
         (CellItem._maxCount item)) /\
  CellItem._maxCount item' = CellItem._maxCount item /\
  CellItem.method item' = CellItem.method item /\
  CellItem.ising item' = CellItem.ising item /\
  ((CellItem.method item <> 0)%Z -> (CellItem.method item <> 1)%Z ->
   CellItem.state item' = CellItem.state item) /\
  ((CellItem._maxCount item <= CellItem.stepCount item)%Z ->
   timeouts K item w = (item, w)) /\
  (forall K' : nat,
     (CellItem._maxCount item <= CellItem.stepCount item')%Z ->
     timeouts (K + K') item w = timeouts K item w).
Proof.
  intros timeouts item'. subst item' timeouts.
  unfold CellItem.timeouts, loopM.
  pose proof (iterM_updateCell (seq 0 K) item w) as Hrun.
  cbv zeta in Hrun. rewrite length_seq in Hrun.
  destruct Hrun as (Hsc & Hmax & Hmeth & Hising & Hstate & Hstop).
  split; [exact Hsc|]. split; [exact Hmax|]. split; [exact Hmeth|].
  split; [exact Hising|]. split; [exact Hstate|]. split; [exact Hstop|].
  intros K' Hfull.
  pose proof (loopM_add K K' (CellItem.updateCell metropolis headBath)
                item w) as Hadd.
  unfold loopM in Hadd. rewrite Hadd.
  destruct (iterM (seq 0 K) _ item w) as [item1 w1] eqn:Hrun1.
  cbn [fst] in Hfull, Hmax.
  apply (iterM_updateCell (seq 0 K') item1 w1). lia.
Qed.
End Viewer.

(* ===================================================================== *)
(** * Random initialisation *)
(* ===================================================================== *)

Lemma iterM_lockstep {A : Type} (Inv : nat -> A -> A -> Prop)
    (body : nat -> A -> Run A) (len start : nat) (a1 a2 : A)
    (w : Statics.t) :
  Inv start a1 a2 ->
  (forall i x1 x2 w',
     start <= i < start + len -> Inv i x1 x2 ->
     (body i x1 w').2 = (body i x2 w').2 /\
     Inv (S i) (body i x1 w').1 (body i x2 w').1) ->
  (iterM (seq start len) body a1 w).2 = (iterM (seq start len) body a2 w).2 /\
  Inv (start + len) (iterM (seq start len) body a1 w).1
    (iterM (seq start len) body a2 w).1.
Proof.
  revert start a1 a2 w.
  induction len as [|len IH]; intros start a1 a2 w Hinv Hbody.
  - simpl. rewrite Nat.add_0_r. split; [reflexivity | exact Hinv].
  - cbn [seq iterM]. unfold bind.
    destruct (Hbody start a1 a2 w ltac:(lia) Hinv) as [Hw Hnext].
    destruct (body start a1 w) as [b1 w1].
    destruct (body start a2 w) as [b2 w2]. cbn [fst snd] in Hw, Hnext.
    subst w2. replace (start + S len) with (S start + len) by lia.
    apply IH; [exact Hnext|].
    intros i x1 x2 w' Hi. apply Hbody. lia.
Qed.

Section InitRand.
Context {D : Distributions}.

(** X19 ([State::initRand]): [initRand] writes every cell of the array.
    Two well-formed lattices of the same dimensions come out of it equal,
    generators included, whatever they held before: the result depends
    on the dimensions and on the state of the generator alone. *)
Theorem X19_initRand_overwrites (state state' : State.t) (w : Statics.t) :
  well_formed state -> well_formed state' ->
  State.rows state = State.rows state' ->
  State.cols state = State.cols state' ->
  State.initRand state w = State.initRand state' w /\
  well_formed (State.initRand state w).1 /\
  State.rows (State.initRand state w).1 = State.rows state /\
  State.cols (State.initRand state w).1 = State.cols state.
Proof.
  intros Hwf Hwf' HN HM. unfold State.initRand, loopM.
  rewrite <- HN, <- HM.
  set (N := State.rows state) in *. set (M := State.cols state) in *.
  set (inner := fun (n m : nat) (st : State.t) =>
    bit <- draw Statics.State_mt (uniform_int_distribution 0 1) ;;
    ret (State.assign st n m (bit mod 2 =? 0)%Z)).
  set (Inv := fun (n : nat) (s1 s2 : State.t) =>
    well_formed s1 /\ well_formed s2 /\
    State.rows s1 = N /\ State.cols s1 = M /\
    State.rows s2 = N /\ State.cols s2 = M /\
    forall r c, r < n -> c < M -> State.at_ s1 r c = State.at_ s2 r c).
  destruct (iterM_lockstep Inv
              (fun n st => iterM (seq 0 M) (inner n) st) N 0 state state' w)
    as [Hw Hend].
  - unfold Inv. split; [exact Hwf|]. split; [exact Hwf'|].
    split; [reflexivity|]. split; [reflexivity|].
    split; [symmetry; exact HN|]. split; [symmetry; exact HM|].
    intros r c Hr. lia.
  - intros n s1 s2 w' Hn (Hwf1 & Hwf2 & HN1 & HM1 & HN2 & HM2 & Hdone).
    destruct (iterM_lockstep
                (fun m t1 t2 =>
                   Inv n t1 t2 /\
                   forall c, c < m -> State.at_ t1 n c = State.at_ t2 n c)
                (inner n) M 0 s1 s2 w') as [Hw1 Hrow].
    + split;
        [exact (conj Hwf1 (conj Hwf2 (conj HN1 (conj HM1
                  (conj HN2 (conj HM2 Hdone))))))|].
      intros c Hc. lia.
    + intros m t1 t2 w'' Hm
        ((Hwt1 & Hwt2 & HNt1 & HMt1 & HNt2 & HMt2 & Hrows) & Hcols).
      unfold inner, bind, draw, ret.
      destruct (uniform_int_distribution 0 1 _) as [bit g]. cbn [fst snd].
      split; [reflexivity|]. split.
      * unfold Inv. split; [apply well_formed_assign, Hwt1|].
        split; [apply well_formed_assign, Hwt2|].
        split; [exact HNt1|]. split; [exact HMt1|].
        split; [exact HNt2|]. split; [exact HMt2|].
        intros r c Hr Hc. rewrite !at_assign by (try assumption; lia).
        destruct ((r =? n) && (c =? m)); [reflexivity|].
        apply Hrows; assumption.
      * intros c Hc. rewrite !at_assign by (try assumption; lia).
        destruct (Nat.eqb_spec c m) as [->|Hne];
          [rewrite Nat.eqb_refl; reflexivity|].
        rewrite andb_false_r. apply Hcols. lia.
    + cbn [Nat.add] in Hrow.
      destruct Hrow as
        ((Hwt1 & Hwt2 & HNt1 & HMt1 & HNt2 & HMt2 & Hrows) & Hcols).
      split; [exact Hw1|]. unfold Inv.
      split; [exact Hwt1|]. split; [exact Hwt2|].
      split; [exact HNt1|]. split; [exact HMt1|].
      split; [exact HNt2|]. split; [exact HMt2|].
      intros r c Hr Hc. destruct (decide (r = n)) as [->|Hne].
      * apply Hcols, Hc.
      * apply Hrows; [lia | exact Hc].
  - cbn [Nat.add] in Hend.
    destruct Hend as (Hwf1 & Hwf2 & HN1 & HM1 & HN2 & HM2 & Hcells).
    fold inner.
    assert ((iterM (seq 0 N) (fun n st => iterM (seq 0 M) (inner n) st)
               state w).1 =
            (iterM (seq 0 N) (fun n st => iterM (seq 0 M) (inner n) st)
               state' w).1) as Heq.
    { apply state_ext; [exact Hwf1 | exact Hwf2 |].
      split; [congruence|]. split; [congruence|].
      intros r c Hr Hc. apply Hcells; congruence. }
    split.
    + apply injective_projections; [exact Heq | exact Hw].
    + split; [exact Hwf1|]. split; [exact HN1 | exact HM1].
Qed.
End InitRand.

(** X19 for the all-up and the striped 4×4 lattices. *)
Lemma X19_initRand_overwrites_witness :
  @State.initRand modulo_distributions lattice_4x4_up (statics_seeded 7) =
  @State.initRand modulo_distributions lattice_4x4_stripe (statics_seeded 7).
Proof.
  assert (well_formed lattice_4x4_up) as Hwf.
  { split; [reflexivity|]. repeat constructor. }
  assert (well_formed lattice_4x4_stripe) as Hwf'.
  { split; [reflexivity|]. repeat constructor. }
  exact (proj1 (@X19_initRand_overwrites modulo_distributions
                  lattice_4x4_up lattice_4x4_stripe (statics_seeded 7)
                  Hwf Hwf' eq_refl eq_refl)).
Defined.

(* ===================================================================== *)
(** * The heat bath and the value a site holds *)
(* ===================================================================== *)

Lemma folded_elsewhere (size i : nat) (d : offset) :
  2 < size -> i < size -> d <> Same ->
  folded size i d <> i /\
  (i = 0 -> folded size i d <> size - 1) /\
  (i = size - 1 -> folded size i d <> 0).
Proof.
  intros Hsize Hi Hd. destruct d; [|contradiction|]; cbn [folded];
    destruct (Nat.eqb_spec i 0); destruct (Nat.eqb_spec i (size - 1)); lia.
Qed.

Lemma written_cells_lines (N M row col r c : nat) :
  site_in (r, c) (written_cells N M row col) = true ->
  (c = col /\
   (r = row \/ (row = 0 /\ r = N - 1) \/ (row = N - 1 /\ r = 0))) \/
  (r = row /\ ((col = 0 /\ c = M - 1) \/ (col = M - 1 /\ c = 0))).
Proof.
  unfold written_cells, site_in.
  destruct (Nat.eqb_spec row 0) as [Hr0|Hr0];
    [|destruct (Nat.eqb_spec row (N - 1)) as [HrN|HrN]];
    (destruct (Nat.eqb_spec col 0) as [Hc0|Hc0];
     [|destruct (Nat.eqb_spec col (M - 1)) as [HcM|HcM]]);
    cbn [existsb app fst snd]; intros Hin;
    repeat match goal with
           | H : (_ || _) = true |- _ =>
               apply orb_true_iff in H; destruct H as [H|H]
           | H : (_ && _) = true |- _ =>
               apply andb_true_iff in H; destruct H as [? ?]
           | H : (_ =? _) = true |- _ => apply Nat.eqb_eq in H
           | H : false = true |- _ => discriminate H
           end; tauto.
Qed.

Lemma neighbours_elsewhere (L : LatticeType) (row : nat)
    (d : offset * offset) :
  In d (neighbours L row) -> d.1 <> Same \/ d.2 <> Same.
Proof.
  destruct L; unfold neighbours;
    repeat match goal with
           | |- context [if ?b then _ else _] => destruct b
           end;
    intros Hin; repeat (destruct Hin as [<-|Hin]); try contradiction;
    cbn [fst snd]; first [left; discriminate | right; discriminate].
Qed.

Lemma neighborSpin_own_write (L : LatticeType) (state : State.t)
    (row col : nat) (value : bool) :
  well_formed state -> 2 < State.rows state -> 2 < State.cols state ->
  row < State.rows state -> col < State.cols state ->
  IsingHeatBathMethod.neighborSpin L
    (IsingHeatBathMethod.update_at state row col value) row col =
  IsingHeatBathMethod.neighborSpin L state row col.
Proof.
  intros Hwf HN HM Hrow Hcol.
  destruct (update_at_dims state row col value) as [HN' HM'].
  rewrite !neighborSpin_folded by (rewrite ?HN', ?HM'; assumption).
  rewrite HN', HM'. apply Zsum_map_ext_in. intros [dr dc] Hin.
  unfold spinAt. cbn [fst snd]. rewrite update_at_cells by assumption.
  destruct (site_in _ _) eqn:Hsite; [exfalso|reflexivity].
  apply written_cells_lines in Hsite.
  destruct (neighbours_elsewhere L row (dr, dc) Hin) as [Hd|Hd];
    cbn [fst snd] in Hd.
  - pose proof (folded_elsewhere (State.rows state) row dr HN Hrow Hd).
    tauto.
  - pose proof (folded_elsewhere (State.cols state) col dc HM Hcol Hd).
    tauto.
Qed.

Lemma update_at_twice (state : State.t) (row col : nat)
    (value value' : bool) :
  well_formed state -> row < State.rows state -> col < State.cols state ->
  IsingHeatBathMethod.update_at
    (IsingHeatBathMethod.update_at state row col value) row col value' =
  IsingHeatBathMethod.update_at state row col value'.
Proof.
  intros Hwf Hrow Hcol.
  destruct (update_at_dims state row col value) as [HN1 HM1].
  destruct (update_at_dims state row col value') as [HN2 HM2].
  destruct (update_at_dims
              (IsingHeatBathMethod.update_at state row col value)
              row col value') as [HN3 HM3].
  apply state_ext; [repeat apply well_formed_update_at; exact Hwf
                   |apply well_formed_update_at; exact Hwf|].
  split; [congruence|]. split; [congruence|]. intros r c _ _.
  rewrite update_at_cells;
    [|apply well_formed_update_at; exact Hwf
     |rewrite HN1; exact Hrow|rewrite HM1; exact Hcol].
  rewrite HN1, HM1, !update_at_cells by assumption.
  destruct (site_in (r, c)
              (written_cells (State.rows state) (State.cols state) row col));
    reflexivity.
Qed.

Section HeatBathSite.
Context {D : Distributions}.

(** X20 ([IsingHeatBathMethod::update], [neighborSpin]): on a lattice
    with N > 2 and M > 2 no neighbour of a site, in any topology, is the
    site itself or one of its edge images, so the neighbour sum at a site
    is the same before and after a write to that site; a second write to
    a site replaces the first; and a heat-bath update that draws the site
    gives the same lattice and leaves the same generators whatever value
    the site and its images held before. *)
Theorem X20_heat_bath_ignores_own_value (L : LatticeType)
    (self : IsingHeatBathMethod.t) (state : State.t) (row col : nat)
    (value value' : bool) (w : Statics.t) :
  well_formed state -> 2 < State.rows state -> 2 < State.cols state ->
  row < State.rows state -> col < State.cols state ->
  let written := IsingHeatBathMethod.update_at state row col value in
  let mt := Statics.IsingHeatBathMethod_mt L in
  let rowDraw :=
    uniform_int_distribution 0 (Z.of_nat (State.rows state - 1))
      (Statics.get mt w) in
  let colDraw :=
    uniform_int_distribution 0 (Z.of_nat (State.cols state - 1)) rowDraw.2 in
  IsingHeatBathMethod.neighborSpin L written row col =
    IsingHeatBathMethod.neighborSpin L state row col /\
  IsingHeatBathMethod.update_at written row col value' =
    IsingHeatBathMethod.update_at state row col value' /\
  (Z.to_nat rowDraw.1 = row -> Z.to_nat colDraw.1 = col ->
   IsingHeatBathMethod.update L self written w =
   IsingHeatBathMethod.update L self state w).
Proof.
  intros Hwf HN HM Hrow Hcol written mt rowDraw colDraw.
  assert (IsingHeatBathMethod.neighborSpin L written row col =
          IsingHeatBathMethod.neighborSpin L state row col) as Hsum
    by (apply neighborSpin_own_write; assumption).
  split; [exact Hsum|]. split; [apply update_at_twice; assumption|].
  intros Hr Hc. rewrite !heat_bath_update_unfold.
  destruct (update_at_dims state row col value) as [HN' HM'].
  fold written in HN', HM'. rewrite HN', HM'.
  fold mt. fold rowDraw. fold colDraw. rewrite Hr, Hc, Hsum.
  f_equal. apply update_at_twice; assumption.
Qed.
End HeatBathSite.

(** X20 for the Square sampler at site (0, 1) of the striped lattice. *)
Lemma X20_heat_bath_ignores_own_value_witness :
  IsingHeatBathMethod.neighborSpin Square
    (IsingHeatBathMethod.update_at lattice_4x4_stripe 0 1 false) 0 1 =
  IsingHeatBathMethod.neighborSpin Square lattice_4x4_stripe 0 1.
Proof.
  assert (well_formed lattice_4x4_stripe) as Hwf.
  { split; [reflexivity|]. repeat constructor. }
  assert (2 < State.rows lattice_4x4_stripe) as HN by (simpl; lia).
  assert (2 < State.cols lattice_4x4_stripe) as HM by (simpl; lia).
  assert (0 < State.rows lattice_4x4_stripe) as Hr by (simpl; lia).
  assert (1 < State.cols lattice_4x4_stripe) as Hc by (simpl; lia).
  exact (proj1 (@X20_heat_bath_ignores_own_value modulo_distributions Square
                  (IsingHeatBathMethod.Build default_model)
                  lattice_4x4_stripe 0 1 false true (statics_seeded 0)
                  Hwf HN HM Hr Hc)).
Defined.

(* ===================================================================== *)
(** * Trials the Metropolis update always takes *)
(* ===================================================================== *)


Section MetropolisDownhill.
Context {D : Distributions}.

End MetropolisDownhill.

